(** * SatisfactoryAudioRenamer: the [convert.py] pipeline

    A shallow embedding of
    [modules/ROOT/attachments/Development/SatisfactoryAudioRenamer/convert.py]:
    the Extractor [wem_to_wav], the Renamer [convert], the Retrier
    [retry_failed_conversions] and the driver, over an explicit model of
    what the script touches: the directory tree below the working
    directory, the failure ledger, the main log, the global counters and
    the external decoder.

    Modelling conventions.
    - Text is [string] (8-bit characters); [str.strip] and [str.lower]
      are the ASCII ones.
    - Paths follow pathlib with "/" as the only separator; drive
      designators are not modelled.
    - The directory tree holds what lies below the working directory; a
      path that leaves it (an absolute one, or one through "..") finds
      nothing and cannot be written. The two log files are kept apart
      from the tree.
    - The failure ledger is the list of records that its logging handler
      wrote since the file was last empty, together with the position of
      the handler's stream; the file's text follows from the two
      ([failed_log_text]), with line feeds as line ends. The external
      decoder acts on the directory tree only.
    - An uncaught Python exception is the [Raise] outcome. *)

From Stdlib Require Import String Ascii ZArith DecimalString DecimalNat.
From stdpp Require Import gmap strings list.

(** ** Strings: the [str] methods the script calls *)

Module Str.

(** Cutting [s] at every character that satisfies [is_sep]: never an
    empty list. *)
Fixpoint split_by (is_sep : ascii -> bool) (s : string) : list string :=
  match s with
  | EmptyString => [EmptyString]
  | String a s' =>
      if is_sep a then EmptyString :: split_by is_sep s'
      else match split_by is_sep s' with
           | w :: ws => String a w :: ws
           | [] => [String a EmptyString]
           end
  end.

(** [s.split(sep)] for a one-character separator. *)
Definition split (sep : ascii) (s : string) : list string :=
  split_by (Ascii.eqb sep) s.

(** The line feed and the carriage return. *)
Definition LF : ascii := ascii_of_nat 10.
Definition CR : ascii := ascii_of_nat 13.

(** The NUL byte, and a run of [n] of them. *)
Definition NUL : ascii := ascii_of_nat 0.

Fixpoint nul_run (n : nat) : string :=
  match n with
  | O => EmptyString
  | S n' => String NUL (nul_run n')
  end.

(** [s.replace(a, b)] for one-character [a] and [b]. *)
Fixpoint replace (a b : ascii) (s : string) : string :=
  match s with
  | EmptyString => EmptyString
  | String c s' => String (if Ascii.eqb c a then b else c) (replace a b s')
  end.

(** [s.startswith(p)]. *)
Definition startswith (p s : string) : bool := String.prefix p s.

(** [s.endswith(p)]. *)
Definition endswith (p s : string) : bool :=
  let n := String.length s in
  let k := String.length p in
  (k <=? n) && String.eqb (String.substring (n - k) k s) p.

Definition lower_ascii (c : ascii) : ascii :=
  let n := nat_of_ascii c in
  if (65 <=? n) && (n <=? 90) then ascii_of_nat (n + 32) else c.

(** [s.lower()]. *)
Fixpoint lower (s : string) : string :=
  match s with
  | EmptyString => EmptyString
  | String c s' => String (lower_ascii c) (lower s')
  end.

(** [c.isspace()]: tab, line feed, vertical tab, form feed, carriage
    return, the four separators 0x1c-0x1f, and the blank. *)
Definition isspace (c : ascii) : bool :=
  let n := nat_of_ascii c in
  ((9 <=? n) && (n <=? 13)) || ((28 <=? n) && (n <=? 32)).

Fixpoint lstrip (s : string) : string :=
  match s with
  | EmptyString => EmptyString
  | String c s' => if isspace c then lstrip s' else s
  end.

Fixpoint rstrip (s : string) : string :=
  match s with
  | EmptyString => EmptyString
  | String c s' =>
      match rstrip s' with
      | EmptyString => if isspace c then EmptyString else String c EmptyString
      | r => String c r
      end
  end.

(** [s.strip()]. *)
Definition strip (s : string) : string := rstrip (lstrip s).

(** [s.rfind(c)]; [None] stands for Python's [-1]. *)
Fixpoint rfind (c : ascii) (s : string) : option nat :=
  match s with
  | EmptyString => None
  | String a s' =>
      match rfind c s' with
      | Some i => Some (S i)
      | None => if Ascii.eqb a c then Some O else None
      end
  end.

(** [c in s]. *)
Fixpoint contains (c : ascii) (s : string) : bool :=
  match s with
  | EmptyString => false
  | String a s' => Ascii.eqb c a || contains c s'
  end.

(** [sep.join(ws)]. *)
Fixpoint join (sep : string) (ws : list string) : string :=
  match ws with
  | [] => EmptyString
  | [w] => w
  | w :: ws' => w +:+ sep +:+ join sep ws'
  end.

(** [str(i)] for a non-negative [int]. *)
Definition of_nat (i : nat) : string := NilEmpty.string_of_uint (Nat.to_uint i).

End Str.

(** ** Paths: [pathlib.Path] *)

Record Path := mkPath { is_absolute : bool; parts : list string }.

#[global] Instance Path_eq_dec : EqDecision Path.
Proof. solve_decision. Defined.

Module PathLib.

Definition keep_part (c : string) : bool :=
  negb (String.eqb c "") && negb (String.eqb c ".").

(** [Path(s)]: empty and "." components vanish. *)
Definition of_str (s : string) : Path :=
  mkPath (Str.startswith "/" s) (List.filter keep_part (Str.split "/" s)).

(** [p / s]: an absolute right operand replaces the left one. *)
Definition joinpath (p : Path) (s : string) : Path :=
  let q := of_str s in
  if is_absolute q then q else mkPath (is_absolute p) (parts p ++ parts q).

(** [str(p)]. *)
Definition str (p : Path) : string :=
  if is_absolute p then "/" +:+ Str.join "/" (parts p)
  else match parts p with
       | [] => "."
       | ps => Str.join "/" ps
       end.

(** [p.name]: the final component, if any. *)
Definition name (p : Path) : string := List.last (parts p) "".

(** [p.parent]. *)
Definition parent (p : Path) : Path :=
  mkPath (is_absolute p) (List.removelast (parts p)).

(** The test [0 < i < len(name) - 1] on [i = name.rfind('.')] that
    [suffix] and [stem] share. *)
Definition suffix_at (nm : string) : option nat :=
  match Str.rfind "." nm with
  | Some i => if (0 <? i) && (i + 1 <? String.length nm) then Some i else None
  | None => None
  end.

(** [p.suffix]. *)
Definition suffix (p : Path) : string :=
  let nm := name p in
  match suffix_at nm with
  | Some i => String.substring i (String.length nm - i) nm
  | None => ""
  end.

(** [p.stem]. *)
Definition stem (p : Path) : string :=
  let nm := name p in
  match suffix_at nm with
  | Some i => String.substring 0 i nm
  | None => nm
  end.

End PathLib.

Notation "p // s" := (PathLib.joinpath p s) (at level 40, left associativity).

(** ** Outcomes: a value, or an uncaught exception *)

Inductive exn :=
| FileExistsError (p : Path)
| NotADirectoryError (p : Path)
| FileNotFoundError (p : Path)
| PermissionError (p : Path)
| SystemExit (code : Z).

Inductive result (A : Type) :=
| Ok (a : A)
| Raise (e : exn).

Arguments Ok {A} a.
Arguments Raise {A} e.

Definition bind {A B} (r : result A) (k : A -> result B) : result B :=
match r with
| Ok a => k a
| Raise e => Raise e
end.

Notation "x <- r ;; k" := (bind r (fun x => k))
(at level 100, r at next level, right associativity).

(** A [for] loop whose body may raise: the first exception ends it. *)
Fixpoint for_each {A S} (body : S -> A -> result S) (l : list A) (s : S) : result S :=
match l with
| [] => Ok s
| a :: l' => s' <- body s a ;; for_each body l' s'
end.

(** [enumerate(l)], counting from [start]. *)
Fixpoint enumerate_from {A} (start : nat) (l : list A) : list (nat * A) :=
match l with
| [] => []
| a :: l' => (start, a) :: enumerate_from (S start) l'
end.

Definition enumerate {A} (l : list A) : list (nat * A) := enumerate_from 0 l.

(** ** The directory tree below the working directory *)

#[local] Set Warnings "-register-all".

Inductive node :=
| File (data : string)
| Dir (entries : list (string * node)).

Module FS.

(** A directory's entries, in listing order. *)
Fixpoint assoc (c : string) (es : list (string * node)) : option node :=
  match es with
  | [] => None
  | (c', n) :: es' => if String.eqb c c' then Some n else assoc c es'
  end.

Fixpoint set_entry (c : string) (v : node) (es : list (string * node))
  : list (string * node) :=
  match es with
  | [] => [(c, v)]
  | (c', n) :: es' =>
      if String.eqb c c' then (c', v) :: es' else (c', n) :: set_entry c v es'
  end.

Fixpoint del_entry (c : string) (es : list (string * node))
  : list (string * node) :=
  match es with
  | [] => []
  | (c', n) :: es' =>
      if String.eqb c c' then es' else (c', n) :: del_entry c es'
  end.

Fixpoint lookup (ps : list string) (n : node) : option node :=
  match ps with
  | [] => Some n
  | c :: ps' =>
      match n with
      | Dir es =>
          match assoc c es with
          | Some n' => lookup ps' n'
          | None => None
          end
      | File _ => None
      end
  end.

(** What lies at [p], if anything. *)
Definition stat (fs : node) (p : Path) : option node :=
  if is_absolute p then None else lookup (parts p) fs.

(** [p.exists()]. *)
Definition exists_ (fs : node) (p : Path) : bool :=
  match stat fs p with
  | Some _ => true
  | None => false
  end.

(** Creating every missing directory along [ps]; [None] when a
    component is a regular file. *)
Fixpoint make_dirs (ps : list string) (n : node) : option node :=
  match n with
  | File _ => None
  | Dir es =>
      match ps with
      | [] => Some n
      | c :: ps' =>
          match make_dirs ps' (default (Dir []) (assoc c es)) with
          | Some n' => Some (Dir (set_entry c n' es))
          | None => None
          end
      end
  end.

(** [p.mkdir(parents=True, exist_ok=True)]. *)
Definition mkdir (fs : node) (p : Path) : result node :=
  if is_absolute p then Raise (PermissionError p)
  else match make_dirs (parts p) fs with
       | Some fs' => Ok fs'
       | None =>
           match stat fs p with
           | Some (File _) => Raise (FileExistsError p)
           | _ => Raise (NotADirectoryError p)
           end
       end.

(** Unlinking whatever lies at [ps], with all below it. *)
Fixpoint remove (ps : list string) (n : node) : node :=
  match ps, n with
  | [c], Dir es => Dir (del_entry c es)
  | c :: ps', Dir es =>
      match assoc c es with
      | Some n' => Dir (set_entry c (remove ps' n') es)
      | None => n
      end
  | _, _ => n
  end.

(** [shutil.rmtree(p)]: [p] must be a directory. *)
Definition rmtree (fs : node) (p : Path) : result node :=
  match stat fs p with
  | Some (Dir _) => Ok (remove (parts p) fs)
  | Some (File _) => Raise (NotADirectoryError p)
  | None => Raise (FileNotFoundError p)
  end.

(** Placing [v] at [ps]; the parent must be an existing directory. *)
Fixpoint place (ps : list string) (v : node) (n : node) : option node :=
  match ps, n with
  | [c], Dir es => Some (Dir (set_entry c v es))
  | c :: ps', Dir es =>
      match assoc c es with
      | Some n' =>
          match place ps' v n' with
          | Some n'' => Some (Dir (set_entry c n'' es))
          | None => None
          end
      | None => None
      end
  | _, _ => None
  end.

(** Writing a regular file, as a decoder or a copy does. *)
Definition write_file (fs : node) (p : Path) (data : string) : option node :=
  if is_absolute p then None
  else match stat fs p with
       | Some (Dir _) => None
       | _ => place (parts p) (File data) fs
       end.

(** [open(p).read()]; [None] stands for the exception. *)
Definition read_text (fs : node) (p : Path) : option string :=
  match stat fs p with
  | Some (File data) => Some data
  | _ => None
  end.

(** [shutil.copy2(src, dst)] onto a destination that does not exist
    (the one call checks this first); [None] stands for the exception. *)
Definition copy2 (fs : node) (src dst : Path) : option node :=
  match read_text fs src with
  | Some data => write_file fs dst data
  | None => None
  end.

(** [shutil.move(src, dst)] onto a destination that does not exist
    (the one call checks this first), which is a rename of the file or
    directory at [src]; [None] stands for the exception. *)
Definition move (fs : node) (src dst : Path) : option node :=
  match stat fs src with
  | Some v =>
      if is_absolute dst then None
      else match parts src with
           | [] => None
           | _ => place (parts dst) v (remove (parts src) fs)
           end
  | None => None
  end.

Definition child (top : Path) (c : string) : Path :=
  mkPath (is_absolute top) (parts top ++ [c]).

Definition is_dir_entry (e : string * node) : bool :=
  match e.2 with Dir _ => true | File _ => false end.

(** The names that [os.walk] reports for one directory. *)
Definition dirnames (es : list (string * node)) : list string :=
  map fst (List.filter is_dir_entry es).
Definition filenames (es : list (string * node)) : list string :=
  map fst (List.filter (fun e => negb (is_dir_entry e)) es).

(** [os.walk] below a directory [n] found at [top]: the directory
    itself, then each subdirectory in listing order. *)
Fixpoint walk (top : Path) (n : node) : list (Path * list string * list string) :=
  match n with
  | File _ => []
  | Dir es =>
      (top, dirnames es, filenames es)
        :: flat_map (fun e => let '(c, n') := e in walk (child top c) n') es
  end.

(** [os.walk(top)]: nothing when [top] is not a directory. *)
Definition os_walk (fs : node) (top : Path) : list (Path * list string * list string) :=
  match stat fs top with
  | Some n => walk top n
  | None => []
  end.

(** [p.glob("*" + ext)]: the entries of directory [p] whose names end
    with [ext]. *)
Definition glob_suffix (fs : node) (p : Path) (ext : string) : list Path :=
  match stat fs p with
  | Some (Dir es) =>
      map (child p) (List.filter (Str.endswith ext) (map fst es))
  | _ => []
  end.

End FS.

(** ** The run's state *)

(** What [subprocess.run] hands back. *)
Record CompletedProcess := mkCompleted { returncode : Z; stderr : string }.

(** The main log, one constructor per [logging] call of the script,
    carrying the values its message interpolates. *)
Inductive LogRecord :=
| UsingDecoder (exe : Path)
| StartingConversion
| SkippingExisting (wav_path final_out_path : Path)
| Converting (wem_path wav_path : Path)
| ConversionFailed (wem_path : Path) (err : string)
| Converted (wem_path : Path)
| UsingExistingWav (wem_path wav_path : Path)
| FailedToCopy (wem_path : Path)
| StartingRenaming
| FailedToRead (txtp_path : Path)
| SkippingRenamed (new_name : Path)
| Renamed (wavname new_name : Path)
| FailedToRename (wavname : Path)
| NotFound (wavname : Path)
| NoFailedConversions
| RetryingFailed
| RetrySkippingExisting (wav_path : Path)
| RetryingConversion (wem_path wav_path : Path)
| FailedSecondTime (wem_path : Path)
| ConvertedOnRetry (wem_path : Path)
| TempDeleted (dir : Path)
| Summary (total converted skipped failed : nat).

#[global] Instance LogRecord_eq_dec : EqDecision LogRecord.
Proof. solve_decision. Defined.

(** The globals of the module and the world around it. [failed_log]
    holds the records that the failed logger's handler has written since
    the ledger file was last empty, and is [None] while the file does not
    exist. [failed_offset] is the position of that handler's stream,
    opened with mode "w" at line 46: the number of bytes it has written
    so far. [decoder_calls] keeps the argument vector of every decoder
    invocation so far. *)
Record State := mkState {
  fs : node;
  total_wems : nat;
  converted_count : nat;
  skipped_count : nat;
  failed_count : nat;
  failed_log : option (list string);
  main_log : list LogRecord;
  decoder_calls : list (list string);
  failed_offset : nat
}.

Definition set_fs (t : node) (st : State) : State :=
  mkState t (total_wems st) (converted_count st) (skipped_count st)
    (failed_count st) (failed_log st) (main_log st) (decoder_calls st) (failed_offset st).

Definition incr_converted (st : State) : State :=
  mkState (fs st) (total_wems st) (S (converted_count st)) (skipped_count st)
    (failed_count st) (failed_log st) (main_log st) (decoder_calls st) (failed_offset st).

Definition incr_skipped (st : State) : State :=
  mkState (fs st) (total_wems st) (converted_count st) (S (skipped_count st))
    (failed_count st) (failed_log st) (main_log st) (decoder_calls st) (failed_offset st).

Definition incr_failed (st : State) : State :=
  mkState (fs st) (total_wems st) (converted_count st) (skipped_count st)
    (S (failed_count st)) (failed_log st) (main_log st) (decoder_calls st) (failed_offset st).

Definition set_failed_count (n : nat) (st : State) : State :=
  mkState (fs st) (total_wems st) (converted_count st) (skipped_count st)
    n (failed_log st) (main_log st) (decoder_calls st) (failed_offset st).

Definition set_failed_log (l : option (list string)) (st : State) : State :=
  mkState (fs st) (total_wems st) (converted_count st) (skipped_count st)
    (failed_count st) l (main_log st) (decoder_calls st) (failed_offset st).

Definition set_failed_offset (n : nat) (st : State) : State :=
  mkState (fs st) (total_wems st) (converted_count st) (skipped_count st)
    (failed_count st) (failed_log st) (main_log st) (decoder_calls st) n.

(** [logging.info], [logging.warning], [logging.error]. *)
Definition log (r : LogRecord) (st : State) : State :=
  mkState (fs st) (total_wems st) (converted_count st) (skipped_count st)
    (failed_count st) (failed_log st) (main_log st ++ [r]) (decoder_calls st)
    (failed_offset st).

(** [failed_logger.error(line)]: the handler writes the record and a
    line feed at its stream's position, which moves on by as much. *)
Definition failed_logger_error (line : string) (st : State) : State :=
  set_failed_offset (failed_offset st + (String.length line + 1))
    (set_failed_log (option_map (fun l => l ++ [line]) (failed_log st)) st).

(** The records of a ledger as the handler writes them out: each with
    a line feed after it. *)
Definition ledger_lines (records : list string) : string :=
  fold_right (fun record text => record +:+ String Str.LF text) "" records.

(** The text of the ledger file. The handler writes at its own position
    [failed_offset], whatever the length of the file: once line 176 has
    emptied the file without moving that position back, the next record
    lands beyond the end of the file, and the bytes from the start of
    the file up to it read as NUL. *)
Definition failed_log_text (st : State) : option string :=
  match failed_log st with
  | None => None
  | Some [] => Some ""
  | Some records =>
      Some (Str.nul_run (failed_offset st - String.length (ledger_lines records))
            +:+ ledger_lines records)
  end.

(** The handler stands at the end of the ledger file: the bytes it has
    written are the records the file holds. *)
Definition ledger_in_step (st : State) : Prop :=
  exists records,
    failed_log st = Some records /\
    failed_offset st = String.length (ledger_lines records).

(** The external decoder: from the invocations so far, the directory
    tree and its argument vector, an exit status with its error text,
    and the directory tree it leaves. *)
Definition Decoder : Type :=
  list (list string) -> node -> list string -> CompletedProcess * node.

Definition VGMSTREAM : Path :=
  PathLib.of_str "C:/FModel/Output/.data/vgmstream-cli.exe".

(** ** The pipeline *)

Section Pipeline.

Variable vgmstream_cli : Decoder.

(** [subprocess.run(argv, capture_output=True, text=True, check=False)]. *)
Definition subprocess_run (argv : list string) (st : State)
  : CompletedProcess * State :=
  let '(result, t) := vgmstream_cli (decoder_calls st) (fs st) argv in
  (result,
   mkState t (total_wems st) (converted_count st) (skipped_count st)
     (failed_count st) (failed_log st) (main_log st) (decoder_calls st ++ [argv])
     (failed_offset st)).

Definition decoder_argv (wav_path wem_path : Path) : list string :=
  [PathLib.str VGMSTREAM; "-o"; PathLib.str wav_path; PathLib.str wem_path].

(** *** Step 1: [wem_to_wav] *)

(** Line 75. *)
Definition digit_folder_of (input_root folder_path : Path) : string :=
  if decide (folder_path = input_root) then "root" else PathLib.name folder_path.

(** Lines 78-120: the body of [for file in files]. *)
Definition wem_to_wav_file (temp_wem_root folder_path : Path) (digit_folder : string)
  (acc : gmap string string * State) (file : string) : gmap string string * State :=
  let '(wav_filename_to_digit_folder, st) := acc in
  let ext := Str.lower (PathLib.suffix (PathLib.of_str file)) in
  let base_name := PathLib.stem (PathLib.of_str file) in
  let wav_name := base_name +:+ ".wav" in
  let wem_path := folder_path // file in
  let wav_path := temp_wem_root // wav_name in
  let wav_filename_to_digit_folder :=
    <[wav_name := digit_folder]> wav_filename_to_digit_folder in
  let final_out_path := PathLib.of_str "out" // digit_folder // wav_name in
  if FS.exists_ (fs st) wav_path || FS.exists_ (fs st) final_out_path then
    (wav_filename_to_digit_folder,
     log (SkippingExisting wav_path final_out_path) (incr_skipped st))
  else if String.eqb ext ".wem" then
    let st := log (Converting wem_path wav_path) st in
    let '(result, st) := subprocess_run (decoder_argv wav_path wem_path) st in
    if negb (returncode result =? 0)%Z || negb (FS.exists_ (fs st) wav_path) then
      (wav_filename_to_digit_folder,
       failed_logger_error (PathLib.str wem_path)
         (log (ConversionFailed wem_path (stderr result)) (incr_failed st)))
    else
      (wav_filename_to_digit_folder, log (Converted wem_path) (incr_converted st))
  else if String.eqb ext ".wav" then
    match FS.copy2 (fs st) wem_path wav_path with
    | Some t =>
        (wav_filename_to_digit_folder,
         log (UsingExistingWav wem_path wav_path) (incr_skipped (set_fs t st)))
    | None =>
        (wav_filename_to_digit_folder,
         failed_logger_error (PathLib.str wem_path)
           (log (FailedToCopy wem_path) (incr_failed st)))
    end
  else (wav_filename_to_digit_folder, st).

(** Lines 72-120: the body of [for folder, _, files in os.walk(input_root)]. *)
Definition wem_to_wav_folder (input_root temp_wem_root : Path)
  (acc : gmap string string * State) (entry : Path * list string * list string)
  : gmap string string * State :=
  let '(folder_path, _, files) := entry in
  let digit_folder := digit_folder_of input_root folder_path in
  fold_left (wem_to_wav_file temp_wem_root folder_path digit_folder) files acc.

(** Lines 64-67: the staging area is wiped and made anew. *)
Definition clean_temp_folder (t : node) (temp_wem_root : Path) : result node :=
  t1 <- (if FS.exists_ t temp_wem_root then FS.rmtree t temp_wem_root else Ok t) ;;
  FS.mkdir t1 temp_wem_root.

(** Lines 59-121. The traversal is that of the tree as it stands once
    the staging area has been cleaned; [os.walk] hands each directory
    over as the [Path] that [Path(folder)] builds. [os.walk] itself
    lists a directory only when the loop reaches it ([wem_to_wav_lazy]
    below); the two agree as long as the loop leaves the input tree as
    it is, which the properties of the traversed files assume. *)
Definition wem_to_wav (input_root temp_root : Path) (st : State)
  : result (gmap string string * State) :=
  let temp_wem_root := temp_root // "wem" in
  t <- clean_temp_folder (fs st) temp_wem_root ;;
  let st := set_fs t st in
  Ok (fold_left (wem_to_wav_folder input_root temp_wem_root)
        (FS.os_walk (fs st) input_root) (∅, st)).

(** *** Step 2: [convert] *)

(** Lines 140-159: the body of [for i, token in enumerate(tokens)]. *)
Definition convert_token (filename : string) (wav_root out_root : Path)
  (mapping : gmap string string) (st : State) (it : nat * string) : result State :=
  let '(i, token) := it in
  if Str.startswith "wem" token then
    let wav_file_only := PathLib.stem (PathLib.of_str token) +:+ ".wav" in
    let wavname := wav_root // wav_file_only in
    let digit_folder := default "unknown" (mapping !! PathLib.name wavname) in
    let out_folder := out_root // digit_folder in
    t1 <- FS.mkdir (fs st) out_folder ;;
    let st := set_fs t1 st in
    let new_name :=
      out_folder // (hd "" (Str.split "." filename) +:+ "_" +:+ Str.of_nat i +:+ ".wav") in
    if FS.exists_ (fs st) new_name then Ok (log (SkippingRenamed new_name) st)
    else if FS.exists_ (fs st) wavname then
      match FS.move (fs st) wavname new_name with
      | Some t2 => Ok (log (Renamed wavname new_name) (set_fs t2 st))
      | None => Ok (log (FailedToRename wavname) st)
      end
    else Ok (log (NotFound wavname) st)
  else Ok st.

(** Line 137. *)
Definition tokens_of (data : string) : list string :=
  Str.split " " (Str.replace Str.LF " " data).

(** Lines 125-159. *)
Definition convert (filename : string) (wav_root out_root : Path)
  (mapping : gmap string string) (st : State) : result State :=
  let txtp_path := PathLib.of_str "txtp" // filename in
  match FS.read_text (fs st) txtp_path with
  | None => Ok (log (FailedToRead txtp_path) st)
  | Some data =>
      let tokens := tokens_of data in
      for_each (convert_token filename wav_root out_root mapping) (enumerate tokens) st
  end.

(** *** Step 3: [retry_failed_conversions] *)

(** Line 174: the ledger read back line by line, blank lines dropped. *)
Definition read_failed_files (records : list string) : list string :=
  List.filter (fun line => negb (String.eqb line ""))
    (map Str.strip
       (flat_map (Str.split_by (fun c => Ascii.eqb c Str.LF || Ascii.eqb c Str.CR)) records)).

(** Lines 181-207: the body of [for wem_path_str in failed_files]. *)
Definition retry_file (temp_wav_root : Path) (acc : nat * State) (wem_path_str : string)
  : nat * State :=
  let '(new_failures, st) := acc in
  let wem_path := PathLib.of_str wem_path_str in
  let wav_name := PathLib.stem wem_path +:+ ".wav" in
  let wav_path := temp_wav_root // wav_name in
  if FS.exists_ (fs st) wav_path then
    (new_failures, log (RetrySkippingExisting wav_path) st)
  else
    let st := log (RetryingConversion wem_path wav_path) st in
    let '(result, st) := subprocess_run (decoder_argv wav_path wem_path) st in
    if negb (returncode result =? 0)%Z || negb (FS.exists_ (fs st) wav_path) then
      (S new_failures,
       failed_logger_error (PathLib.str wem_path) (log (FailedSecondTime wem_path) st))
    else
      (new_failures, log (ConvertedOnRetry wem_path) (incr_converted st)).

(** Lines 163-210. The pass is entered with the handler at the end of
    the file, so that the lines which line 174 finds are the records
    written so far; line 176 empties the file through a file object of
    its own and leaves the handler's position where it was. *)
Definition retry_failed_conversions (temp_wav_root : Path) (st : State) : State :=
  match failed_log st with
  | None => log NoFailedConversions st
  | Some records =>
      let st := log RetryingFailed st in
      let failed_files := read_failed_files records in
      let st := set_failed_log (Some []) st in
      let '(new_failures, st) :=
        fold_left (retry_file temp_wav_root) failed_files (0, st) in
      set_failed_count new_failures st
  end.

(** *** Start-up and driver *)

(** Lines 20-55: both logs are opened afresh, the two folders are made,
    the decoder must be present, the counters start at zero.
    [decoder_present] stands for [VGMSTREAM.exists()], a path outside
    the tree. *)
Definition startup (decoder_present : bool) (t : node) : result State :=
  t1 <- FS.mkdir t (PathLib.of_str "out") ;;
  t2 <- FS.mkdir t1 (PathLib.of_str "txtp" // "wem") ;;
  if decoder_present
  then Ok (mkState t2 0 0 0 0 (Some []) [UsingDecoder VGMSTREAM] [] 0)
  else Raise (SystemExit 1).

(** Lines 214-242. *)
Definition main (decoder_present : bool) (t : node) : result State :=
  st <- startup decoder_present t ;;
  let wem_root := PathLib.of_str "txtp/wem" in
  let wav_temp_root := PathLib.of_str "out_temp" // "wem" in
  let out_root := PathLib.of_str "out" in
  let st := log StartingConversion st in
  r <- wem_to_wav wem_root (PathLib.of_str "out_temp") st ;;
  let '(mapping, st) := r in
  let st := log StartingRenaming st in
  let txtp_files := FS.glob_suffix (fs st) (PathLib.of_str "txtp") ".txtp" in
  st <- for_each
          (fun st file_path =>
             convert (PathLib.name file_path) wav_temp_root out_root mapping st)
          txtp_files st ;;
  let st := retry_failed_conversions wav_temp_root st in
  st <- (if FS.exists_ (fs st) (PathLib.parent wav_temp_root) then
           t' <- FS.rmtree (fs st) (PathLib.parent wav_temp_root) ;;
           Ok (log (TempDeleted (PathLib.parent wav_temp_root)) (set_fs t' st))
         else Ok st) ;;
  Ok (log (Summary (total_wems st) (converted_count st) (skipped_count st)
             (failed_count st)) st).

End Pipeline.

(** ** A decoder and a tree to run the pipeline on *)

(** A decoder that writes "RIFF" followed by the source's text to the
    output path when the source is a regular file, and fails without
    writing otherwise. *)
Definition riff_decoder : Decoder :=
  fun _ t argv =>
    match argv with
    | [_; _; out; src] =>
        match FS.read_text t (PathLib.of_str src) with
        | Some data =>
            match FS.write_file t (PathLib.of_str out) ("RIFF" +:+ data) with
            | Some t' => (mkCompleted 0 "", t')
            | None => (mkCompleted 1 "cannot write", t)
            end
        | None => (mkCompleted 1 "cannot read", t)
        end
    | _ => (mkCompleted 2 "usage", t)
    end.

(** A fresh state over a given tree: counters at zero, an empty ledger. *)
Definition fresh (t : node) : State := mkState t 0 0 0 0 (Some []) [] [] 0.

(** One asset [txtp/wem/1/a.wem] and one reference file [txtp/r.txtp]
    that names it once. *)
Definition sample_tree : node :=
  Dir [("txtp",
        Dir [("r.txtp", File "wem/a.wem");
             ("wem", Dir [("1", Dir [("a.wem", File "A")])])])].

(** The same while a run is under way: the staging area exists and is
    empty, and so does the output folder. *)
Definition sample_tree_staging : node :=
  Dir [("txtp",
        Dir [("r.txtp", File "wem/a.wem");
             ("wem", Dir [("1", Dir [("a.wem", File "A")])])]);
       ("out", Dir []);
       ("out_temp", Dir [("wem", Dir [])])].

(** The same once [a.wem] has been decoded into the staging area. *)
Definition sample_tree_staged : node :=
  Dir [("txtp",
        Dir [("r.txtp", File "wem/a.wem");
             ("wem", Dir [("1", Dir [("a.wem", File "A")])])]);
       ("out", Dir []);
       ("out_temp", Dir [("wem", Dir [("a.wav", File "RIFFA")])])].

(** Two assets with the stem [a], in the subfolders [1] and [2]. *)
Definition twin_tree : node :=
  Dir [("txtp",
        Dir [("wem", Dir [("1", Dir [("a.wem", File "A1")]);
                          ("2", Dir [("a.wem", File "A2")])])])].

Definition twin_tree_staging : node :=
  Dir [("txtp",
        Dir [("wem", Dir [("1", Dir [("a.wem", File "A1")]);
                          ("2", Dir [("a.wem", File "A2")])])]);
       ("out_temp", Dir [("wem", Dir [])])].

(** The state the first complete run over [sample_tree] ends in, and the
    state a second complete run over the tree it left ends in. *)
Definition after_first_run : State :=
  Eval vm_compute in
    match main riff_decoder true sample_tree with
    | Ok st => st
    | Raise _ => fresh sample_tree
    end.

Definition after_second_run : State :=
  Eval vm_compute in
    match main riff_decoder true (fs after_first_run) with
    | Ok st => st
    | Raise _ => fresh sample_tree
    end.

(** [sample_tree_staged] once the folder [out/1], or the folder
    [out/unknown], has been made. *)
Definition sample_tree_out_1 : node :=
  Dir [("txtp",
        Dir [("r.txtp", File "wem/a.wem");
             ("wem", Dir [("1", Dir [("a.wem", File "A")])])]);
       ("out", Dir [("1", Dir [])]);
       ("out_temp", Dir [("wem", Dir [("a.wav", File "RIFFA")])])].

Definition sample_tree_out_unknown : node :=
  Dir [("txtp",
        Dir [("r.txtp", File "wem/a.wem");
             ("wem", Dir [("1", Dir [("a.wem", File "A")])])]);
       ("out", Dir [("unknown", Dir [])]);
       ("out_temp", Dir [("wem", Dir [("a.wav", File "RIFFA")])])].

(** A state about to retry two ledger entries: [a.wem], which decodes,
    and [b.wem], which is not there to be read. *)
Definition retry_state : State :=
  mkState sample_tree_staging 0 0 0 2
    (Some ["txtp/wem/1/a.wem"; "txtp/wem/1/b.wem"]) [] [] 34.

(** The files of a traversal in the order the Extractor meets them,
    each with the directory that holds it. *)
Definition files_walked (walk : list (Path * list string * list string))
  : list (Path * string) :=
  flat_map (fun entry => let '(folder_path, _, files) := entry in
                         map (pair folder_path) files) walk.

(** The key under which a file is entered in the FolderMapping. *)
Definition wav_name_of (file : string) : string :=
  PathLib.stem (PathLib.of_str file) +:+ ".wav".

(** What meeting one file does to the FolderMapping (line 84). *)
Definition record_label (input_root : Path) (m : gmap string string)
  (df : Path * string) : gmap string string :=
  <[wav_name_of df.2 := digit_folder_of input_root df.1]> m.

(** What the Renamer does with one staged file once the destination
    folder has been made, leaving tree [t1]: an existing [target] is left
    alone; otherwise the file at [staged], if there is one, is moved to
    [target]; nothing else in the state changes but the main log. *)
Definition relocated (st : State) (t1 : node) (staged target : Path) (st' : State) : Prop :=
  decoder_calls st' = decoder_calls st /\
  converted_count st' = converted_count st /\
  skipped_count st' = skipped_count st /\
  failed_count st' = failed_count st /\
  failed_log st' = failed_log st /\
  ((FS.exists_ t1 target = true /\ fs st' = t1 /\
    main_log st' = main_log st ++ [SkippingRenamed target]) \/
   (FS.exists_ t1 target = false /\ FS.exists_ t1 staged = true /\
    FS.stat (fs st') target = FS.stat t1 staged /\
    main_log st' = main_log st ++ [Renamed staged target]) \/
   (FS.exists_ t1 target = false /\ FS.exists_ t1 staged = true /\
    FS.move t1 staged target = None /\ fs st' = t1 /\
    main_log st' = main_log st ++ [FailedToRename staged]) \/
   (FS.exists_ t1 target = false /\ FS.exists_ t1 staged = false /\ fs st' = t1 /\
    main_log st' = main_log st ++ [NotFound staged])).

(** The retry pass seen through the main log: the paths logged as
    failing a second time, and the paths logged as converted on retry. *)
Definition second_failures (events : list LogRecord) : list Path :=
  omap (fun r => match r with FailedSecondTime p => Some p | _ => None end) events.

Definition retry_successes (events : list LogRecord) : list Path :=
  omap (fun r => match r with ConvertedOnRetry p => Some p | _ => None end) events.

(** A decoder that is busy the first two times it is invoked, and from
    then on decodes as [riff_decoder] does, but for a source without
    content, which it rejects. *)
Definition late_decoder : Decoder :=
  fun calls t argv =>
    if length calls <? 2 then (mkCompleted 1 "busy", t)
    else if bool_decide (FS.read_text t (PathLib.of_str (List.last argv "")) = Some "")
         then (mkCompleted 1 "no data", t)
         else riff_decoder calls t argv.

(** Two assets in [txtp/wem/1]: [a.wem], and [b.wem] without content. *)
Definition retry_tree : node :=
  Dir [("txtp",
        Dir [("wem", Dir [("1", Dir [("a.wem", File "A"); ("b.wem", File "")])])])].

(** The state a complete run over [retry_tree] with [late_decoder] ends
    in: both assets fail in the Extractor, and on retry [a.wem] decodes
    while [b.wem] fails again. *)
Definition after_retry_run : State :=
  Eval vm_compute in
    match main late_decoder true retry_tree with
    | Ok st => st
    | Raise _ => fresh retry_tree
    end.

(** The asset [txtp/wem/1/a.wem] with its reference file, and in the
    folder [2], listed after [1], a text file [a.txt]; and the same tree
    without that text file. *)
Definition stray_tree : node :=
  Dir [("txtp",
        Dir [("r.txtp", File "wem/a.wem");
             ("wem", Dir [("1", Dir [("a.wem", File "A")]);
                          ("2", Dir [("a.txt", File "notes")])])])].

Definition stray_tree_cleared : node :=
  Dir [("txtp",
        Dir [("r.txtp", File "wem/a.wem");
             ("wem", Dir [("1", Dir [("a.wem", File "A")]);
                          ("2", Dir [])])])].

(** The states that complete runs over these two trees end in. *)
Definition after_stray_run : State :=
  Eval vm_compute in
    match main riff_decoder true stray_tree with
    | Ok st => st
    | Raise _ => fresh stray_tree
    end.

Definition after_cleared_run : State :=
  Eval vm_compute in
    match main riff_decoder true stray_tree_cleared with
    | Ok st => st
    | Raise _ => fresh stray_tree_cleared
    end.

(** Two assets with the stem [x] below an input root [in] that is to
    hold the staging area [in/tmp/wem] as well. *)
Definition nested_tree : node :=
  Dir [("in", Dir [("a", Dir [("x.wem", File "A")]);
                   ("b", Dir [("x.wem", File "B")])])].

(** *** Notions for the properties of the whole stages *)

(** One step of the Extractor's two nested loops, for a file paired with
    the directory that holds it. *)
Definition wem_to_wav_step (vg : Decoder) (input_root temp_wem_root : Path)
  (acc : gmap string string * State) (df : Path * string) : gmap string string * State :=
  wem_to_wav_file vg temp_wem_root df.1 (digit_folder_of input_root df.1) acc df.2.

(** The three outcome counters together. *)
Definition counted (st : State) : nat :=
  converted_count st + skipped_count st + failed_count st.

(** The extensions that lines 92 and 109 act on. *)
Definition is_wem (file : string) : bool :=
  String.eqb (Str.lower (PathLib.suffix (PathLib.of_str file))) ".wem".

Definition is_wav (file : string) : bool :=
  String.eqb (Str.lower (PathLib.suffix (PathLib.of_str file))) ".wav".

(** A traversed file's own path, and the decoder invocation for it. *)
Definition source_path (df : Path * string) : Path := df.1 // df.2.

Definition decode_call (temp_wem_root : Path) (df : Path * string) : list string :=
  decoder_argv (temp_wem_root // wav_name_of df.2) (source_path df).

(** How deep a tree goes. *)
Fixpoint height (n : node) : nat :=
  match n with
  | File _ => 0
  | Dir es => S (fold_right (fun e h => let '(_, n') := e in Nat.max (height n') h) 0 es)
  end.

(** [for entry in os.walk(top): acc = body(acc, entry)] as the generator
    runs it: a directory is listed when the loop reaches it, in the
    tree as the body has left it by then ([tree_of acc]); the body
    runs on the listing, and then the subdirectories that were listed
    are gone into one after the other. A [top] that is not a directory
    yields nothing. [None] when [fuel] levels do not suffice. *)
Fixpoint walk_loop {A} (fuel : nat) (tree_of : A -> node)
  (body : A -> Path * list string * list string -> A) (top : Path) (acc : A) : option A :=
  match fuel with
  | O => None
  | S fuel' =>
      match FS.stat (tree_of acc) top with
      | Some (Dir es) =>
          fold_left
            (fun r c =>
               match r with
               | Some acc' => walk_loop fuel' tree_of body (FS.child top c) acc'
               | None => None
               end)
            (FS.dirnames es)
            (Some (body acc (top, FS.dirnames es, FS.filenames es)))
      | _ => Some acc
      end
  end.

(** Lines 59-121 with the traversal made that way. *)
Definition wem_to_wav_lazy (vg : Decoder) (fuel : nat) (input_root temp_root : Path)
  (st : State) : option (result (gmap string string * State)) :=
  let temp_wem_root := temp_root // "wem" in
  match clean_temp_folder (fs st) temp_wem_root with
  | Raise e => Some (Raise e)
  | Ok t =>
      option_map Ok
        (walk_loop fuel (fun acc => fs acc.2)
           (wem_to_wav_folder vg input_root temp_wem_root) input_root (∅, set_fs t st))
  end.

(** The staging area and the input root lie apart: neither is at or
    below the other. *)
Definition staging_apart (input_root temp_root : Path) : Prop :=
  ~ parts input_root `prefix_of` parts (temp_root // "wem") /\
  ~ parts (temp_root // "wem") `prefix_of` parts input_root.

(** The decoder leaves the input tree alone: whichever file the
    Extractor hands it, what lies at [input_root] is afterwards what it
    was before. *)
Definition decoder_keeps_input (vg : Decoder) (input_root temp_root : Path) : Prop :=
  forall calls t df,
    FS.stat (vg calls t (decode_call (temp_root // "wem") df)).2 input_root
    = FS.stat t input_root.

(** A directory tree as a file system keeps it: within one directory no
    name occurs twice. *)
Fixpoint distinct_names (names : list string) : bool :=
  match names with
  | [] => true
  | c :: names' => negb (existsb (String.eqb c) names') && distinct_names names'
  end.

Fixpoint wf_tree (n : node) : bool :=
  match n with
  | File _ => true
  | Dir es =>
      distinct_names (map fst es)
      && forallb (fun e => let '(_, n') := e in wf_tree n') es
  end.

(** A path as [Path(...)] builds it: every part is a proper component. *)
Definition wf_path (p : Path) : Prop :=
  Forall (fun c => PathLib.keep_part c = true /\ Str.contains "/" c = false) (parts p).

(** A stretch of the run that leaves the books alone: decoder
    invocations, counters and ledger. *)
Definition books_kept (st st' : State) : Prop :=
  decoder_calls st' = decoder_calls st /\
  total_wems st' = total_wems st /\
  converted_count st' = converted_count st /\
  skipped_count st' = skipped_count st /\
  failed_count st' = failed_count st /\
  failed_log st' = failed_log st.

(** A stretch of the run that leaves every regular file outside [area]
    where it is and as it is. *)
Definition files_kept (area : Path) (st st' : State) : Prop :=
  forall q data,
    FS.read_text (fs st) q = Some data ->
    ~ parts area `prefix_of` parts q ->
    FS.read_text (fs st') q = Some data.

(** The decoder invocation of the retry pass for one ledger entry. *)
Definition retry_call (temp_wav_root : Path) (entry : string) : list string :=
  decoder_argv (temp_wav_root // (PathLib.stem (PathLib.of_str entry) +:+ ".wav"))
    (PathLib.of_str entry).

(** What every stage keeps true of a run: [total_wems] is never raised,
    and nothing is counted as converted without a decoder invocation. *)
Definition tally_sound (st : State) : Prop :=
  total_wems st = 0 /\ converted_count st <= length (decoder_calls st).

(** The state after the Renamer has gone through [r.txtp] over
    [sample_tree_staged] with [a.wav] mapped to the label "1". *)
Definition after_rename : State :=
  Eval vm_compute in
    match convert "r.txtp" (PathLib.of_str "out_temp/wem") (PathLib.of_str "out")
            {["a.wav" := "1"]} (fresh sample_tree_staged) with
    | Ok st => st
    | Raise _ => fresh sample_tree_staged
    end.

(** A tree whose one source is a ready-made [b.wav], with the staging
    area in place, and the same once that file has been staged. *)
Definition wav_source_tree : node :=
  Dir [("txtp", Dir [("wem", Dir [("1", Dir [("b.wav", File "RIFFB")])])]);
       ("out_temp", Dir [("wem", Dir [])])].

Definition wav_source_tree_staged : node :=
  Dir [("txtp", Dir [("wem", Dir [("1", Dir [("b.wav", File "RIFFB")])])]);
       ("out_temp", Dir [("wem", Dir [("b.wav", File "RIFFB")])])].

(** Reading a field off an updated state. *)
Ltac state_simpl :=
  cbn [fs total_wems converted_count skipped_count failed_count failed_log main_log
       decoder_calls failed_offset log incr_converted incr_skipped incr_failed set_fs
       set_failed_log set_failed_count set_failed_offset failed_logger_error
       fst snd option_map fmap option_fmap] in *.

(** Closing one branch of a bookkeeping lemma. *)
Ltac close_books :=
  state_simpl; cbn [map length]; rewrite ?app_nil_r;
  repeat split; try lia; try done; try (by repeat constructor);
  try apply sublist_nil_l.

(** Taking the code's branches one by one: the next test, or the next
    optional result, in the goal. *)
Ltac case_branch :=
  match goal with
  | |- context [if ?b then _ else _] => destruct b
  | |- context [match ?o with Some _ => _ | None => _ end] => destruct o
  end.

(** ** Step 1, one file at a time *)

Section Extractor.

Variable vg : Decoder.

(** C6. A traversed file whose staged [.wav] or whose guess
    [out/<digit_folder>/<stem>.wav] already exists is skipped: the
    decoder is not invoked, nothing is copied (the tree stays as it is),
    the skipped counter goes up by exactly one, and the other counters
    and the ledger stay as they are. *)
Theorem existing_wav_is_skipped
  (temp_wem_root folder_path : Path) (digit_folder : string)
  (m : gmap string string) (st : State) (file : string) :
  let wav_name := PathLib.stem (PathLib.of_str file) +:+ ".wav" in
  let wav_path := temp_wem_root // wav_name in
  let final_out_path := PathLib.of_str "out" // digit_folder // wav_name in
  FS.exists_ (fs st) wav_path = true \/ FS.exists_ (fs st) final_out_path = true ->
  let st' := (wem_to_wav_file vg temp_wem_root folder_path digit_folder (m, st) file).2 in
  decoder_calls st' = decoder_calls st /\
  fs st' = fs st /\
  skipped_count st' = S (skipped_count st) /\
  converted_count st' = converted_count st /\
  failed_count st' = failed_count st /\
  failed_log st' = failed_log st /\
  main_log st' = main_log st ++ [SkippingExisting wav_path final_out_path].
Proof.
  intros wav_name wav_path final_out_path Hex st'.
  assert (Hor : FS.exists_ (fs st) wav_path || FS.exists_ (fs st) final_out_path = true).
  { destruct Hex as [-> | ->]; [done | by rewrite orb_true_r]. }
  subst st'. unfold wem_to_wav_file.
  fold wav_name. fold wav_path. fold final_out_path. rewrite Hor.
  by destruct st.
Qed.

(** C3. A [.wem] file that is not skipped is handed to the decoder
    once; it counts as converted exactly when the exit status is zero
    and the output file exists afterwards. Then the converted counter
    goes up by one; otherwise the failed counter goes up by one and the
    source path is appended to the ledger. *)
Theorem wem_decode_outcome
  (temp_wem_root folder_path : Path) (digit_folder : string)
  (m : gmap string string) (st : State) (file : string)
  (result : CompletedProcess) (t : node) :
  let wav_name := PathLib.stem (PathLib.of_str file) +:+ ".wav" in
  let wav_path := temp_wem_root // wav_name in
  let wem_path := folder_path // file in
  let final_out_path := PathLib.of_str "out" // digit_folder // wav_name in
  Str.lower (PathLib.suffix (PathLib.of_str file)) = ".wem" ->
  FS.exists_ (fs st) wav_path = false ->
  FS.exists_ (fs st) final_out_path = false ->
  vg (decoder_calls st) (fs st) (decoder_argv wav_path wem_path) = (result, t) ->
  let st' := (wem_to_wav_file vg temp_wem_root folder_path digit_folder (m, st) file).2 in
  let success := (returncode result =? 0)%Z && FS.exists_ t wav_path in
  decoder_calls st' = decoder_calls st ++ [decoder_argv wav_path wem_path] /\
  fs st' = t /\
  skipped_count st' = skipped_count st /\
  (success = true <->
   main_log st' = main_log st ++ [Converting wem_path wav_path; Converted wem_path]) /\
  (success = true ->
   converted_count st' = S (converted_count st) /\
   failed_count st' = failed_count st /\
   failed_log st' = failed_log st) /\
  (success = false ->
   main_log st' = main_log st
     ++ [Converting wem_path wav_path; ConversionFailed wem_path (stderr result)] /\
   failed_count st' = S (failed_count st) /\
   converted_count st' = converted_count st /\
   failed_log st' = (fun l => l ++ [PathLib.str wem_path]) <$> failed_log st).
Proof.
  intros wav_name wav_path wem_path final_out_path Hext Hw Hf Hrun st' success.
  subst st'. unfold wem_to_wav_file.
  fold wav_name. fold wav_path. fold wem_path. fold final_out_path.
  rewrite Hw, Hf, Hext. simpl orb. cbv iota.
  change (String.eqb ".wem" ".wem") with true. cbv iota.
  unfold subprocess_run. destruct st as [t0 tw cc sc fc fl ml dc fo]. simpl in *.
  rewrite Hrun. simpl. subst success.
  destruct (returncode result =? 0)%Z; simpl.
  - destruct (FS.exists_ t wav_path); simpl.
    + rewrite <- !app_assoc. simpl. repeat split; try done.
    + rewrite <- !app_assoc. simpl. repeat split; try done.
      intros H. apply app_inv_head in H. discriminate.
  - rewrite <- !app_assoc. simpl. repeat split; try done.
    intros H. apply app_inv_head in H. discriminate.
Qed.

End Extractor.

Lemma existing_wav_is_skipped_witness :
  FS.exists_ sample_tree_staged (PathLib.of_str "out_temp/wem/a.wav") = true /\
  decoder_calls
    (wem_to_wav_file riff_decoder (PathLib.of_str "out_temp/wem")
       (PathLib.of_str "txtp/wem/1") "1" (∅, fresh sample_tree_staged) "a.wem").2 = [] /\
  skipped_count
    (wem_to_wav_file riff_decoder (PathLib.of_str "out_temp/wem")
       (PathLib.of_str "txtp/wem/1") "1" (∅, fresh sample_tree_staged) "a.wem").2 = 1.
Proof.
  split; [reflexivity|].
  pose proof (existing_wav_is_skipped riff_decoder (PathLib.of_str "out_temp/wem")
                (PathLib.of_str "txtp/wem/1") "1" ∅ (fresh sample_tree_staged) "a.wem") as H.
  cbv zeta in H. destruct (H (or_introl eq_refl)) as (Hd & _ & Hs & _).
  split; [exact Hd | exact Hs].
Defined.

Lemma wem_decode_outcome_witness :
  Str.lower (PathLib.suffix (PathLib.of_str "a.wem")) = ".wem" /\
  FS.exists_ sample_tree_staging (PathLib.of_str "out_temp/wem/a.wav") = false /\
  FS.exists_ sample_tree_staging (PathLib.of_str "out/1/a.wav") = false /\
  riff_decoder [] sample_tree_staging
    (decoder_argv (PathLib.of_str "out_temp/wem/a.wav") (PathLib.of_str "txtp/wem/1/a.wem"))
  = (mkCompleted 0 "", sample_tree_staged) /\
  converted_count
    (wem_to_wav_file riff_decoder (PathLib.of_str "out_temp/wem")
       (PathLib.of_str "txtp/wem/1") "1" (∅, fresh sample_tree_staging) "a.wem").2 = 1.
Proof.
  do 4 (split; [reflexivity|]).
  pose proof (wem_decode_outcome riff_decoder (PathLib.of_str "out_temp/wem")
                (PathLib.of_str "txtp/wem/1") "1" ∅ (fresh sample_tree_staging) "a.wem"
                (mkCompleted 0 "") sample_tree_staged) as H.
  cbv zeta in H.
  destruct (H eq_refl eq_refl eq_refl eq_refl) as (_ & _ & _ & _ & Hok & _).
  destruct (Hok eq_refl) as (Hc & _). exact Hc.
Defined.

(** ** Step 3: the retry pass *)

Section Retrier.

Variable vg : Decoder.


End Retrier.

(** The retry pass on two entries, one that now decodes and one that
    fails again: one more conversion, one failure reported, and the one
    record written back is the entry that failed again; in the file it
    comes after the 34 bytes' worth of the two records read. *)
Example retry_convergence :
  let st' := retry_failed_conversions riff_decoder (PathLib.of_str "out_temp/wem") retry_state in
  converted_count st' = 1 /\ failed_count st' = 1 /\
  failed_log st' = Some ["txtp/wem/1/b.wem"] /\
  failed_log_text st'
  = Some (Str.nul_run 34 +:+ "txtp/wem/1/b.wem" +:+ String Str.LF "").
Proof. vm_compute. by repeat split. Qed.

(** A pass over a ledger whose one entry has its [.wav] staged already:
    the decoder is not invoked, nothing is converted, the ledger ends up
    empty and the failed count is set to zero. *)
Example retry_drops_staged_entry :
  let st := mkState sample_tree_staged 0 0 0 1 (Some ["txtp/wem/1/a.wem"]) [] [] 17 in
  let st' := retry_failed_conversions riff_decoder (PathLib.of_str "out_temp/wem") st in
  decoder_calls st' = [] /\ converted_count st' = 0 /\
  failed_log st' = Some [] /\ failed_count st' = 0.
Proof. vm_compute. by repeat split. Qed.


(** ** Step 1: the traversal and the FolderMapping *)

Section Traversal.

Variable vg : Decoder.

Lemma node_ind' (P : node -> Prop) :
  (forall data, P (File data)) ->
  (forall es, Forall (fun e => P e.2) es -> P (Dir es)) ->
  forall n, P n.
Proof.
  intros HF HD. fix IH 1. intros [data|es]; [apply HF|].
  apply HD. induction es as [|[c n] es IHes]; constructor; [apply IH | apply IHes].
Qed.

Lemma last_app_nonempty {A} (l r : list A) d : r <> [] -> List.last (l ++ r) d = List.last r d.
Proof.
  intros Hr. induction l as [|a l IHl]; [done|].
  simpl. destruct (l ++ r) eqn:E; [|done].
  by apply app_eq_nil in E as [_ ->].
Qed.

(** Every directory that [os.walk] reports lies at or below its start. *)
Lemma walk_below n : forall top folder_path dirs files,
  (folder_path, dirs, files) ∈ FS.walk top n ->
  exists rel, folder_path = mkPath (is_absolute top) (parts top ++ rel).
Proof.
  induction n as [data|es IH] using node_ind'; intros top folder_path dirs files Hin.
  - by apply elem_of_nil in Hin.
  - simpl in Hin. apply elem_of_cons in Hin as [Heq|Hin].
    + exists []. rewrite app_nil_r. injection Heq as -> _ _. by destruct top.
    + apply list_elem_of_In, in_flat_map in Hin as ([c n'] & Hc & Hin).
      apply list_elem_of_In in Hc, Hin.
      rewrite Forall_forall in IH. specialize (IH _ Hc _ _ _ _ Hin) as [rel ->].
      exists (c :: rel). simpl. by rewrite <- app_assoc.
Qed.

(** C7. For every directory the Extractor traverses, the label of its
    files is "root" exactly when the directory is the input root itself,
    whatever that directory is called, and otherwise the name of that
    directory, the last step of the way down from the input root. *)
Theorem root_category_labeling
  (t : node) (input_root folder_path : Path) (dirs files : list string) :
  (folder_path, dirs, files) ∈ FS.os_walk t input_root ->
  exists rel : list string,
    folder_path = mkPath (is_absolute input_root) (parts input_root ++ rel) /\
    (folder_path = input_root <-> rel = []) /\
    digit_folder_of input_root folder_path
    = match rel with
      | [] => "root"
      | _ => List.last rel ""
      end /\
    (rel <> [] -> digit_folder_of input_root folder_path = PathLib.name folder_path).
Proof.
  unfold FS.os_walk. intros Hin.
  destruct (FS.stat t input_root) as [n|]; [|by apply elem_of_nil in Hin].
  apply walk_below in Hin as [rel ->]. exists rel.
  assert (Hroot : mkPath (is_absolute input_root) (parts input_root ++ rel) = input_root
                  <-> rel = []).
  { split.
    - intros H. apply (f_equal parts) in H. simpl in H.
      rewrite <- (app_nil_r (parts input_root)) in H at 2.
      by apply app_inv_head in H.
    - intros ->. rewrite app_nil_r. by destruct input_root. }
  split; [done|]. split; [done|].
  unfold digit_folder_of. destruct rel as [|c rel].
  - rewrite decide_True; [|by apply Hroot]. done.
  - rewrite decide_False; [|intros H; by apply Hroot in H].
    unfold PathLib.name. simpl parts. by rewrite last_app_nonempty.
Qed.

(** The mapping is updated for every file, whatever else happens to it. *)
Lemma wem_to_wav_file_mapping temp_wem_root folder_path digit_folder m st file :
  (wem_to_wav_file vg temp_wem_root folder_path digit_folder (m, st) file).1
  = <[wav_name_of file := digit_folder]> m.
Proof.
  unfold wem_to_wav_file. fold (wav_name_of file).
  repeat (match goal with
          | |- context [let '(_, _) := ?p in _] => destruct p
          | _ => case_branch
          end; simpl); done.
Qed.

Lemma wem_to_wav_files_mapping temp_wem_root input_root folder_path files : forall acc,
  (fold_left (wem_to_wav_file vg temp_wem_root folder_path
                (digit_folder_of input_root folder_path)) files acc).1
  = fold_left (record_label input_root) (map (pair folder_path) files) acc.1.
Proof.
  induction files as [|f files IH]; intros [m st]; [done|].
  cbn [fold_left map]. rewrite IH.
  destruct (wem_to_wav_file _ _ _ _ _ _) as [m1 st1] eqn:E.
  apply (f_equal fst) in E. rewrite wem_to_wav_file_mapping in E.
  simpl in *. by subst.
Qed.

Lemma wem_to_wav_walk_mapping temp_wem_root input_root walk : forall acc,
  (fold_left (wem_to_wav_folder vg input_root temp_wem_root) walk acc).1
  = fold_left (record_label input_root) (files_walked walk) acc.1.
Proof.
  induction walk as [|[[folder_path dirs] files] walk IH]; intros acc; [done|].
  cbn [fold_left files_walked flat_map]. rewrite fold_left_app, IH.
  unfold wem_to_wav_folder. by rewrite wem_to_wav_files_mapping.
Qed.

Lemma record_label_other input_root k l : forall m,
  Forall (fun df => wav_name_of df.2 <> k) l ->
  fold_left (record_label input_root) l m !! k = m !! k.
Proof.
  induction l as [|df l IH]; intros m Hl; [done|].
  apply Forall_cons in Hl as [Hk Hl]. simpl. rewrite IH by done.
  unfold record_label. by rewrite lookup_insert_ne.
Qed.

Lemma list_ascii_of_string_app s1 s2 :
  list_ascii_of_string (s1 +:+ s2) = list_ascii_of_string s1 ++ list_ascii_of_string s2.
Proof. induction s1 as [|a s1 IH]; simpl; [done | by rewrite IH]. Qed.

Lemma string_app_inv_tail s1 s2 x : s1 +:+ x = s2 +:+ x -> s1 = s2.
Proof.
  intros H. apply (f_equal list_ascii_of_string) in H.
  rewrite !list_ascii_of_string_app in H. apply app_inv_tail in H.
  apply (f_equal string_of_list_ascii) in H.
  by rewrite !string_of_list_ascii_of_string in H.
Qed.

End Traversal.

Lemma root_category_labeling_witness :
  (PathLib.of_str "txtp/wem/1", [], ["a.wem"])
    ∈ FS.os_walk sample_tree (PathLib.of_str "txtp/wem") /\
  exists rel : list string,
    PathLib.of_str "txtp/wem/1" = mkPath false (["txtp"; "wem"] ++ rel) /\
    digit_folder_of (PathLib.of_str "txtp/wem") (PathLib.of_str "txtp/wem/1")
    = match rel with
      | [] => "root"
      | _ => List.last rel ""
      end.
Proof.
  assert (Hin : (PathLib.of_str "txtp/wem/1", [], ["a.wem"])
                  ∈ FS.os_walk sample_tree (PathLib.of_str "txtp/wem")).
  { apply list_elem_of_In. vm_compute. tauto. }
  split; [exact Hin|].
  destruct (root_category_labeling sample_tree (PathLib.of_str "txtp/wem")
              (PathLib.of_str "txtp/wem/1") [] ["a.wem"] Hin) as (rel & Hrel & _ & Hlabel & _).
  exists rel. split; [exact Hrel | exact Hlabel].
Defined.

(** ** Step 2: where the Renamer sends a token's file *)

Section Renamer.

Lemma split_free sep s : Forall (fun w => Str.contains sep w = false) (Str.split sep s).
Proof.
  unfold Str.split. induction s as [|a s IH]; simpl.
  - by constructor.
  - destruct (Ascii.eqb sep a) eqn:Ea.
    + by constructor.
    + destruct (Str.split_by _ s) as [|w ws].
      * constructor; [|done]. simpl. by rewrite Ea.
      * apply Forall_cons in IH as [Hw Hws]. constructor; [|done].
        simpl. by rewrite Ea.
Qed.

Lemma split_single sep w : Str.contains sep w = false -> Str.split sep w = [w].
Proof.
  unfold Str.split. induction w as [|a w IH]; simpl; [done|].
  intros H. apply orb_false_elim in H as [Ea Hw]. by rewrite Ea, IH.
Qed.

Lemma contains_app c s1 s2 :
  Str.contains c (s1 +:+ s2) = Str.contains c s1 || Str.contains c s2.
Proof. induction s1 as [|a s1 IH]; simpl; [done | by rewrite IH, orb_assoc]. Qed.

Lemma contains_substring c s : forall n m,
  Str.contains c s = false -> Str.contains c (String.substring n m s) = false.
Proof.
  induction s as [|a s IH]; intros n m H.
  - by destruct n, m.
  - simpl in H. apply orb_false_elim in H as [Ea Hs].
    destruct n, m; simpl; try done.
    + by rewrite Ea, IH.
    + by apply IH.
    + by apply IH.
Qed.

Lemma name_free s : Str.contains "/" (PathLib.name (PathLib.of_str s)) = false.
Proof.
  unfold PathLib.name, PathLib.of_str. simpl parts.
  pose proof (split_free "/" s) as H.
  induction (Str.split "/" s) as [|w ws IH]; [done|].
  apply Forall_cons in H as [Hw Hws]. simpl.
  destruct (PathLib.keep_part w); [|by apply IH].
  simpl. destruct (List.filter PathLib.keep_part ws) eqn:E; [done | by apply IH].
Qed.

Lemma stem_free s : Str.contains "/" (PathLib.stem (PathLib.of_str s)) = false.
Proof.
  unfold PathLib.stem. destruct (PathLib.suffix_at _).
  - apply contains_substring, name_free.
  - apply name_free.
Qed.

Lemma startswith_cons c a s : Str.startswith (String c "") (String a s) = Ascii.eqb c a.
Proof.
  unfold Str.startswith. cbn [String.prefix].
  destruct (ascii_dec c a) as [->|Hne].
  - rewrite Ascii.eqb_refl. by destruct s.
  - symmetry. by apply Ascii.eqb_neq.
Qed.

Lemma keep_part_wav x : PathLib.keep_part (x +:+ ".wav") = true.
Proof.
  unfold PathLib.keep_part.
  assert (H1 : x +:+ ".wav" <> "") by (by destruct x).
  assert (H2 : x +:+ ".wav" <> ".") by (by destruct x as [|a [|b x]]).
  apply String.eqb_neq in H1, H2. by rewrite H1, H2.
Qed.

(** A stem followed by ".wav" is one path component. *)
Lemma of_str_wav x :
  Str.contains "/" x = false ->
  PathLib.of_str (x +:+ ".wav") = mkPath false [x +:+ ".wav"].
Proof.
  intros Hx. unfold PathLib.of_str. rewrite split_single.
  - f_equal.
    + destruct x as [|a x]; [done|]. cbn [Str.contains] in Hx.
      apply orb_false_elim in Hx as [Ea _].
      change (String a x +:+ ".wav") with (String a (x +:+ ".wav")).
      by rewrite startswith_cons.
    + cbn [List.filter]. by rewrite keep_part_wav.
  - by rewrite contains_app, Hx.
Qed.

Lemma joinpath_wav p x :
  Str.contains "/" x = false ->
  p // (x +:+ ".wav") = mkPath (is_absolute p) (parts p ++ [x +:+ ".wav"]).
Proof. intros Hx. unfold PathLib.joinpath. by rewrite of_str_wav. Qed.

(** Line 143 looks the staged file's own name up. *)
Lemma staged_name wav_root token :
  PathLib.name (wav_root // (PathLib.stem (PathLib.of_str token) +:+ ".wav"))
  = PathLib.stem (PathLib.of_str token) +:+ ".wav".
Proof.
  rewrite joinpath_wav by apply stem_free.
  unfold PathLib.name. simpl parts. apply List.last_last.
Qed.

Lemma assoc_set_entry c v es : FS.assoc c (FS.set_entry c v es) = Some v.
Proof.
  induction es as [|[c' n] es IH]; simpl.
  - by rewrite String.eqb_refl.
  - destruct (String.eqb c c') eqn:E; simpl; by rewrite E.
Qed.

Lemma place_step c c2 ps v es :
  FS.place (c :: c2 :: ps) v (Dir es)
  = match FS.assoc c es with
    | Some n' =>
        match FS.place (c2 :: ps) v n' with
        | Some n'' => Some (Dir (FS.set_entry c n'' es))
        | None => None
        end
    | None => None
    end.
Proof. reflexivity. Qed.

Lemma lookup_place ps v : forall n n',
  FS.place ps v n = Some n' -> FS.lookup ps n' = Some v.
Proof.
  induction ps as [|c ps IH]; intros n n' H; [done|].
  destruct n as [data|es]; [by destruct ps|].
  destruct ps as [|c2 ps].
  - injection H as <-. cbn [FS.lookup]. by rewrite assoc_set_entry.
  - rewrite place_step in H. destruct (FS.assoc c es) as [n1|]; [|done].
    destruct (FS.place (c2 :: ps) v n1) as [n2|] eqn:E; [|done].
    injection H as <-. cbn [FS.lookup]. rewrite assoc_set_entry.
    by apply (IH n1).
Qed.

(** What [shutil.move] leaves at the destination is what lay at the
    source. *)
Lemma move_stat t src dst t' :
  FS.move t src dst = Some t' -> FS.stat t' dst = FS.stat t src.
Proof.
  unfold FS.move, FS.stat at 2. destruct (is_absolute src) eqn:Ha.
  - unfold FS.stat. by rewrite Ha.
  - unfold FS.stat. rewrite Ha.
    destruct (FS.lookup (parts src) t) as [v|]; [|done].
    destruct (is_absolute dst); [done|].
    destruct (parts src); [done|]. apply lookup_place.
Qed.

Lemma enumerate_from_lookup {A} (l : list A) : forall start i x,
  l !! i = Some x -> (start + i, x) ∈ enumerate_from start l.
Proof.
  induction l as [|a l IH]; intros start i x H; [done|].
  destruct i as [|i]; simpl in *.
  - injection H as ->. rewrite Nat.add_0_r. apply list_elem_of_here.
  - apply list_elem_of_further. rewrite <- Nat.add_succ_comm. by apply IH.
Qed.

Lemma enumerate_lookup {A} (l : list A) i x : l !! i = Some x -> (i, x) ∈ enumerate l.
Proof. apply (enumerate_from_lookup l 0). Qed.

(** The body of the token loop at a "wem" token, with the label that
    line 143 resolves. *)
Lemma convert_token_spec filename wav_root out_root mapping i token :
  Str.startswith "wem" token = true ->
  let key := PathLib.stem (PathLib.of_str token) +:+ ".wav" in
  let label := default "unknown" (mapping !! key) in
  let target :=
    out_root // label // (hd "" (Str.split "." filename) +:+ "_" +:+ Str.of_nat i +:+ ".wav") in
  forall st,
    match FS.mkdir (fs st) (out_root // label) with
    | Ok t1 =>
        exists st',
          convert_token filename wav_root out_root mapping st (i, token) = Ok st' /\
          relocated st t1 (wav_root // key) target st'
    | Raise e =>
        convert_token filename wav_root out_root mapping st (i, token) = Raise e
    end.
Proof.
  intros Hwem key label target st. unfold convert_token. rewrite Hwem, staged_name.
  fold key. fold label. destruct (FS.mkdir (fs st) (out_root // label)) as [t1|e]; [|done].
  cbn [bind]. fold target. unfold relocated.
  destruct st as [t0 tw cc sc fc fl ml dc fo]. cbn [fs set_fs].
  destruct (FS.exists_ t1 target) eqn:Ht.
  { eexists. split; [reflexivity|]. simpl. repeat split. by left. }
  destruct (FS.exists_ t1 (wav_root // key)) eqn:Hs.
  - destruct (FS.move t1 (wav_root // key) target) as [t2|] eqn:Hm.
    + eexists. split; [reflexivity|]. simpl. repeat split.
      right; left. repeat split. by apply move_stat.
    + eexists. split; [reflexivity|]. simpl. repeat split.
      right; right; left. by repeat split.
  - eexists. split; [reflexivity|]. simpl. repeat split.
    right; right; right. by repeat split.
Qed.

(** C2. When a reference file is read, [convert] runs its loop body over
    the tokens of the content (newlines turned into spaces, then cut at
    spaces), each with its position among all tokens. For a token at
    position [i] that starts with "wem" and whose [<stem>.wav] has the
    FolderMapping entry [label], the destination is
    [out_root/label/<S>_<i>.wav], [S] being the reference file's name
    up to its first ".": once the folder [out_root/label] is made, an
    existing destination is left alone, and otherwise the staged
    [<stem>.wav], if present, is moved there. *)
Theorem renamer_destination
  (filename : string) (wav_root out_root : Path) (mapping : gmap string string)
  (st0 : State) (data : string) (i : nat) (token label : string) :
  FS.read_text (fs st0) (PathLib.of_str "txtp" // filename) = Some data ->
  tokens_of data !! i = Some token ->
  Str.startswith "wem" token = true ->
  mapping !! (PathLib.stem (PathLib.of_str token) +:+ ".wav") = Some label ->
  let staged := wav_root // (PathLib.stem (PathLib.of_str token) +:+ ".wav") in
  let target :=
    out_root // label // (hd "" (Str.split "." filename) +:+ "_" +:+ Str.of_nat i +:+ ".wav") in
  convert filename wav_root out_root mapping st0
  = for_each (convert_token filename wav_root out_root mapping)
      (enumerate (Str.split " " (Str.replace Str.LF " " data))) st0 /\
  (i, token) ∈ enumerate (Str.split " " (Str.replace Str.LF " " data)) /\
  forall st t1,
    FS.mkdir (fs st) (out_root // label) = Ok t1 ->
    exists st',
      convert_token filename wav_root out_root mapping st (i, token) = Ok st' /\
      relocated st t1 staged target st'.
Proof.
  intros Hread Hi Hwem Hmap staged target. split; [|split].
  - unfold convert. by rewrite Hread.
  - by apply enumerate_lookup.
  - intros st t1 Hmk.
    pose proof (convert_token_spec filename wav_root out_root mapping i token Hwem st) as H.
    cbv zeta in H. rewrite Hmap in H.
    change (default "unknown" (Some label)) with label in H. by rewrite Hmk in H.
Qed.

(** C5. For a "wem" token whose [<stem>.wav] has no FolderMapping
    entry, the label is "unknown": the destination is
    [out_root/unknown/<S>_<i>.wav], and the missing entry raises
    nothing; the step returns whenever the folder [out_root/unknown]
    can be made, and an exception of that [mkdir] is the only one that
    can leave it. *)
Theorem unknown_category_fallback
  (filename : string) (wav_root out_root : Path) (mapping : gmap string string)
  (i : nat) (token : string) (st : State) :
  Str.startswith "wem" token = true ->
  mapping !! (PathLib.stem (PathLib.of_str token) +:+ ".wav") = None ->
  let staged := wav_root // (PathLib.stem (PathLib.of_str token) +:+ ".wav") in
  let target :=
    out_root // "unknown"
      // (hd "" (Str.split "." filename) +:+ "_" +:+ Str.of_nat i +:+ ".wav") in
  match FS.mkdir (fs st) (out_root // "unknown") with
  | Ok t1 =>
      exists st',
        convert_token filename wav_root out_root mapping st (i, token) = Ok st' /\
        relocated st t1 staged target st'
  | Raise e =>
      convert_token filename wav_root out_root mapping st (i, token) = Raise e
  end.
Proof.
  intros Hwem Hmap staged target.
  pose proof (convert_token_spec filename wav_root out_root mapping i token Hwem st) as H.
  cbv zeta in H. rewrite Hmap in H. exact H.
Qed.

End Renamer.

Lemma renamer_destination_witness :
  FS.read_text sample_tree_staged (PathLib.of_str "txtp" // "r.txtp") = Some "wem/a.wem" /\
  tokens_of "wem/a.wem" !! 0 = Some "wem/a.wem" /\
  Str.startswith "wem" "wem/a.wem" = true /\
  ({["a.wav" := "1"]} : gmap string string) !! "a.wav" = Some "1" /\
  FS.mkdir sample_tree_staged (PathLib.of_str "out" // "1") = Ok sample_tree_out_1 /\
  exists st',
    convert_token "r.txtp" (PathLib.of_str "out_temp/wem") (PathLib.of_str "out")
      {["a.wav" := "1"]} (fresh sample_tree_staged) (0, "wem/a.wem") = Ok st' /\
    relocated (fresh sample_tree_staged) sample_tree_out_1
      (PathLib.of_str "out_temp/wem/a.wav") (PathLib.of_str "out/1/r_0.wav") st'.
Proof.
  assert (Hmap : ({["a.wav" := "1"]} : gmap string string) !! "a.wav" = Some "1")
    by apply lookup_singleton_eq.
  do 3 (split; [reflexivity|]). split; [exact Hmap|]. split; [reflexivity|].
  pose proof (renamer_destination "r.txtp" (PathLib.of_str "out_temp/wem")
                (PathLib.of_str "out") {["a.wav" := "1"]} (fresh sample_tree_staged)
                "wem/a.wem" 0 "wem/a.wem" "1" eq_refl eq_refl eq_refl Hmap) as H.
  cbv zeta in H. destruct H as (_ & _ & H).
  exact (H (fresh sample_tree_staged) sample_tree_out_1 eq_refl).
Defined.

Lemma unknown_category_fallback_witness :
  Str.startswith "wem" "wem/a.wem" = true /\
  (∅ : gmap string string) !! "a.wav" = None /\
  exists st',
    convert_token "r.txtp" (PathLib.of_str "out_temp/wem") (PathLib.of_str "out")
      ∅ (fresh sample_tree_staged) (0, "wem/a.wem") = Ok st' /\
    relocated (fresh sample_tree_staged) sample_tree_out_unknown
      (PathLib.of_str "out_temp/wem/a.wav") (PathLib.of_str "out/unknown/r_0.wav") st'.
Proof.
  split; [reflexivity|]. split; [reflexivity|].
  exact (unknown_category_fallback "r.txtp" (PathLib.of_str "out_temp/wem")
           (PathLib.of_str "out") ∅ 0 "wem/a.wem" (fresh sample_tree_staged)
           eq_refl eq_refl).
Defined.

(** ** Two runs in a row *)

(** C1. The first run over [sample_tree] decodes [a.wem] and renames the
    result to [out/1/r_0.wav]. The second run, over the tree the first
    one left, invokes the decoder on [a.wem] again and counts it as
    converted, not as skipped: the guess [out/1/a.wav] that line 86
    tests is not the name [r_0.wav] under which the Renamer stored the
    file. The output is left as it was. *)
Theorem second_run_decodes_again :
  main riff_decoder true sample_tree = Ok after_first_run /\
  FS.read_text (fs after_first_run) (PathLib.of_str "out/1/r_0.wav") = Some "RIFFA" /\
  FS.exists_ (fs after_first_run) (PathLib.of_str "out/1/a.wav") = false /\
  main riff_decoder true (fs after_first_run) = Ok after_second_run /\
  decoder_calls after_second_run
  = [["C:/FModel/Output/.data/vgmstream-cli.exe"; "-o";
      "out_temp/wem/a.wav"; "txtp/wem/1/a.wem"]] /\
  converted_count after_second_run = 1 /\
  skipped_count after_second_run = 0 /\
  Converted (PathLib.of_str "txtp/wem/1/a.wem") ∈ main_log after_second_run /\
  fs after_second_run = fs after_first_run.
Proof.
  repeat split; try (vm_compute; reflexivity).
  apply list_elem_of_In. vm_compute. tauto.
Qed.

(** C4. A retry pass after which the ledger file does not hold exactly
    the entries that failed again. Both assets of [retry_tree] fail in
    the Extractor; in the retry pass [a.wem] decodes and [b.wem] fails
    again. The counters come out right: one more conversion, and a
    failed count of one, for the one asset logged as failing a second
    time, whose path is the one record written back. But line 176
    emptied the file while the handler kept its position behind the 34
    bytes written in the first pass, so the file is 34 NUL bytes
    followed by the record, and read back as line 174 reads it, it
    yields one entry that is not the path of [b.wem]. *)
Theorem retry_leaves_hole_in_ledger :
  main late_decoder true retry_tree = Ok after_retry_run /\
  retry_successes (main_log after_retry_run) = [PathLib.of_str "txtp/wem/1/a.wem"] /\
  second_failures (main_log after_retry_run) = [PathLib.of_str "txtp/wem/1/b.wem"] /\
  converted_count after_retry_run = 1 /\
  failed_count after_retry_run = 1 /\
  failed_log after_retry_run = Some ["txtp/wem/1/b.wem"] /\
  failed_offset after_retry_run = 34 + 17 /\
  failed_log_text after_retry_run
  = Some (Str.nul_run 34 +:+ "txtp/wem/1/b.wem" +:+ String Str.LF "") /\
  read_failed_files [Str.nul_run 34 +:+ "txtp/wem/1/b.wem" +:+ String Str.LF ""]
  = [Str.nul_run 34 +:+ "txtp/wem/1/b.wem"] /\
  Str.nul_run 34 +:+ "txtp/wem/1/b.wem" <> "txtp/wem/1/b.wem".
Proof.
  repeat split; try (vm_compute; reflexivity).
  vm_compute. discriminate.
Qed.

(** C8. A file that is neither [.wem] nor [.wav] and is not ignored.
    The text file [a.txt] in folder [2] is neither decoded nor copied,
    but it leaves its mark: met after
    [a.wem] of folder [1] has been staged, it replaces the FolderMapping
    entry of ["a.wav"] by its own folder's label and is counted and
    logged as a skipped asset, and the Renamer then files the decoded
    asset under [out/2]. Without the text file the entry is "1", nothing
    is skipped, and the asset goes to [out/1]. *)
Theorem stray_file_is_not_ignored :
  Str.lower (PathLib.suffix (PathLib.of_str "a.txt")) = ".txt" /\
  files_walked (FS.os_walk stray_tree (PathLib.of_str "txtp/wem"))
  = [(PathLib.of_str "txtp/wem/1", "a.wem"); (PathLib.of_str "txtp/wem/2", "a.txt")] /\
  (exists m st,
     wem_to_wav riff_decoder (PathLib.of_str "txtp/wem") (PathLib.of_str "out_temp")
       (fresh stray_tree) = Ok (m, st) /\
     m !! "a.wav" = Some "2" /\
     skipped_count st = 1 /\
     length (decoder_calls st) = 1) /\
  (exists m st,
     wem_to_wav riff_decoder (PathLib.of_str "txtp/wem") (PathLib.of_str "out_temp")
       (fresh stray_tree_cleared) = Ok (m, st) /\
     m !! "a.wav" = Some "1" /\
     skipped_count st = 0 /\
     length (decoder_calls st) = 1) /\
  main riff_decoder true stray_tree = Ok after_stray_run /\
  main riff_decoder true stray_tree_cleared = Ok after_cleared_run /\
  SkippingExisting (PathLib.of_str "out_temp/wem/a.wav") (PathLib.of_str "out/2/a.wav")
    ∈ main_log after_stray_run /\
  last (main_log after_stray_run) = Some (Summary 0 1 1 0) /\
  last (main_log after_cleared_run) = Some (Summary 0 1 0 0) /\
  FS.read_text (fs after_stray_run) (PathLib.of_str "out/2/r_0.wav") = Some "RIFFA" /\
  FS.exists_ (fs after_stray_run) (PathLib.of_str "out/1/r_0.wav") = false /\
  FS.read_text (fs after_cleared_run) (PathLib.of_str "out/1/r_0.wav") = Some "RIFFA".
Proof.
  split; [reflexivity|]. split; [reflexivity|].
  split.
  { eexists _, _. split; [vm_compute; reflexivity|].
    repeat split; vm_compute; reflexivity. }
  split.
  { eexists _, _. split; [vm_compute; reflexivity|].
    repeat split; vm_compute; reflexivity. }
  repeat split; try (vm_compute; reflexivity).
  apply list_elem_of_In. vm_compute. tauto.
Qed.

(** * Further properties of the stages *)

(** ** The Extractor as a whole *)

Section ExtractorRun.

Variable vg : Decoder.

Lemma wem_to_wav_files_as_steps input_root temp_wem_root folder_path files : forall acc,
  fold_left (wem_to_wav_file vg temp_wem_root folder_path
               (digit_folder_of input_root folder_path)) files acc
  = fold_left (wem_to_wav_step vg input_root temp_wem_root)
      (map (pair folder_path) files) acc.
Proof. induction files as [|f files IH]; intros acc; [done|]. cbn [fold_left map]. apply IH. Qed.

(** The two nested loops are one loop over the files in traversal order. *)
Lemma wem_to_wav_walk_as_steps input_root temp_wem_root walk : forall acc,
  fold_left (wem_to_wav_folder vg input_root temp_wem_root) walk acc
  = fold_left (wem_to_wav_step vg input_root temp_wem_root) (files_walked walk) acc.
Proof.
  induction walk as [|[[folder_path dirs] files] walk IH]; intros acc; [done|].
  cbn [fold_left files_walked flat_map]. rewrite fold_left_app, IH.
  unfold wem_to_wav_folder. by rewrite wem_to_wav_files_as_steps.
Qed.

(** What one file does to the books. *)
Lemma wem_to_wav_step_accounts input_root temp_wem_root m st df :
  let r := wem_to_wav_step vg input_root temp_wem_root (m, st) df in
  exists failing decoded : list (Path * string),
    failing `sublist_of` [df] /\ decoded `sublist_of` [df] /\
    Forall (fun df => is_wem df.2 = true) decoded /\
    failed_log r.2
    = (fun l => l ++ map (fun df => PathLib.str (source_path df)) failing) <$> failed_log st /\
    failed_count r.2 = failed_count st + length failing /\
    decoder_calls r.2 = decoder_calls st ++ map (decode_call temp_wem_root) decoded /\
    converted_count st <= converted_count r.2 <= converted_count st + length decoded /\
    skipped_count st <= skipped_count r.2 /\
    counted st <= counted r.2 <= S (counted st) /\
    (is_wem df.2 || is_wav df.2 = true -> counted r.2 = S (counted st)) /\
    total_wems r.2 = total_wems st.
Proof.
  destruct df as [d f].
  unfold wem_to_wav_step, wem_to_wav_file, subprocess_run, counted, decode_call,
    source_path, is_wem, is_wav, wav_name_of.
  destruct st as [t0 tw cc sc fc fl ml dc fo]. state_simpl.
  assert (Hfl : fl = (fun l : list string => l ++ []) <$> fl)
    by (by destruct fl; simpl; rewrite ?app_nil_r).
  destruct (FS.exists_ t0 _ || FS.exists_ t0 _).
  { exists [], []. close_books. }
  destruct (String.eqb _ ".wem") eqn:Ewem.
  - destruct (vg dc t0 _) as [res t] eqn:Hrun. state_simpl.
    destruct (negb (returncode res =? 0)%Z || negb (FS.exists_ t _)).
    + exists [(d, f)], [(d, f)]. close_books.
    + exists [], [(d, f)]. close_books.
  - destruct (String.eqb _ ".wav") eqn:Ewav.
    + destruct (FS.copy2 t0 _ _) as [t|].
      * exists [], []. close_books.
      * exists [(d, f)], []. close_books.
    + exists [], []. close_books.
Qed.

(** What the loop over all traversed files does to the books. *)
Lemma wem_to_wav_steps_accounts input_root temp_wem_root l : forall m st,
  let r := fold_left (wem_to_wav_step vg input_root temp_wem_root) l (m, st) in
  exists failing decoded : list (Path * string),
    failing `sublist_of` l /\ decoded `sublist_of` l /\
    Forall (fun df => is_wem df.2 = true) decoded /\
    failed_log r.2
    = (fun l => l ++ map (fun df => PathLib.str (source_path df)) failing) <$> failed_log st /\
    failed_count r.2 = failed_count st + length failing /\
    decoder_calls r.2 = decoder_calls st ++ map (decode_call temp_wem_root) decoded /\
    converted_count st <= converted_count r.2 <= converted_count st + length decoded /\
    skipped_count st <= skipped_count r.2 /\
    counted st <= counted r.2 <= counted st + length l /\
    (Forall (fun df => is_wem df.2 || is_wav df.2 = true) l ->
     counted r.2 = counted st + length l) /\
    total_wems r.2 = total_wems st.
Proof.
  induction l as [|df l IH]; intros m st; cbv zeta.
  - exists [], []. cbn [fold_left snd map length]. rewrite !app_nil_r.
    repeat split; try lia; try done.
    by destruct (failed_log st); simpl; rewrite ?app_nil_r.
  - cbn [fold_left].
    destruct (wem_to_wav_step_accounts input_root temp_wem_root m st df)
      as (f1 & d1 & Hf1 & Hd1 & Hw1 & Hl1 & Hn1 & Hc1 & Hv1 & Hs1 & Ht1 & Ha1 & Hw1').
    destruct (wem_to_wav_step vg input_root temp_wem_root (m, st) df) as [m1 st1].
    cbn [snd] in *.
    destruct (IH m1 st1)
      as (f2 & d2 & Hf2 & Hd2 & Hw2 & Hl2 & Hn2 & Hc2 & Hv2 & Hs2 & Ht2 & Ha2 & Hw2').
    exists (f1 ++ f2), (d1 ++ d2). rewrite !map_app, !length_app.
    repeat split; try lia.
    + by apply (sublist_app f1 [df]).
    + by apply (sublist_app d1 [df]).
    + by apply Forall_app.
    + rewrite Hl2, Hl1. destruct (failed_log st); simpl; [|done]. by rewrite app_assoc.
    + rewrite Hc2, Hc1. by rewrite app_assoc.
    + cbn [length]. lia.
    + intros Hall. apply Forall_cons in Hall as [Ha Hall].
      rewrite (Ha2 Hall), (Ha1 Ha). cbn [length]. lia.
Qed.

Lemma record_label_keeps input_root k l : forall m,
  is_Some (m !! k) -> is_Some (fold_left (record_label input_root) l m !! k).
Proof.
  induction l as [|df l IH]; intros m Hk; [done|].
  cbn [fold_left]. apply IH. unfold record_label.
  destruct (decide (wav_name_of df.2 = k)) as [->|Hne].
  - rewrite lookup_insert_eq. eauto.
  - by rewrite lookup_insert_ne.
Qed.

Lemma record_label_covers input_root l : forall m df,
  df ∈ l -> is_Some (fold_left (record_label input_root) l m !! wav_name_of df.2).
Proof.
  induction l as [|a l IH]; intros m df Hin; [by apply elem_of_nil in Hin|].
  cbn [fold_left]. apply elem_of_cons in Hin as [->|Hin]; [|by apply IH].
  apply record_label_keeps. unfold record_label. rewrite lookup_insert_eq. eauto.
Qed.

Lemma record_label_origin input_root l : forall m k v,
  fold_left (record_label input_root) l m !! k = Some v ->
  m !! k = Some v \/
  exists df, df ∈ l /\ wav_name_of df.2 = k /\ v = digit_folder_of input_root df.1.
Proof.
  induction l as [|a l IH]; intros m k v H; [by left|].
  cbn [fold_left] in H. apply IH in H as [H|(df & Hin & Hk & Hv)].
  - unfold record_label in H. destruct (decide (wav_name_of a.2 = k)) as [Hk|Hne].
    + rewrite Hk, lookup_insert_eq in H. injection H as <-.
      right. exists a. split; [apply list_elem_of_here | done].
    + rewrite lookup_insert_ne in H by done. by left.
  - right. exists df. split; [by apply list_elem_of_further | done].
Qed.

End ExtractorRun.

(** ** The directory tree under the operations the script uses *)

Section Tree.

Lemma assoc_set_entry_ne c c' v es :
  c <> c' -> FS.assoc c' (FS.set_entry c v es) = FS.assoc c' es.
Proof.
  intros Hne. induction es as [|[c0 n] es IH]; simpl.
  - destruct (String.eqb_spec c' c); [congruence | done].
  - destruct (String.eqb_spec c c0) as [->|Hc]; simpl.
    + destruct (String.eqb_spec c' c0); [congruence | done].
    + by rewrite IH.
Qed.

Lemma assoc_absent c es :
  existsb (String.eqb c) (map fst es) = false -> FS.assoc c es = None.
Proof.
  induction es as [|[c0 n] es IH]; simpl; [done|].
  intros H. apply orb_false_elim in H as [Hc Hes]. rewrite Hc. by apply IH.
Qed.

Lemma assoc_del_entry c es :
  distinct_names (map fst es) = true -> FS.assoc c (FS.del_entry c es) = None.
Proof.
  induction es as [|[c0 n] es IH]; simpl; [done|].
  intros H. apply andb_prop in H as [Hc Hes].
  destruct (String.eqb_spec c c0) as [->|Hne].
  - apply assoc_absent. by apply negb_true_iff.
  - simpl. destruct (String.eqb_spec c c0); [done|]. by apply IH.
Qed.

Lemma wf_tree_child c es n :
  wf_tree (Dir es) = true -> FS.assoc c es = Some n -> wf_tree n = true.
Proof.
  simpl. intros H. apply andb_prop in H as [_ H].
  induction es as [|[c0 n0] es IH]; simpl in *; [done|].
  apply andb_prop in H as [H0 H].
  destruct (String.eqb c c0); [by intros [= <-] | by apply IH].
Qed.

Lemma remove_step c c2 ps es :
  FS.remove (c :: c2 :: ps) (Dir es)
  = match FS.assoc c es with
    | Some n' => Dir (FS.set_entry c (FS.remove (c2 :: ps) n') es)
    | None => Dir es
    end.
Proof. reflexivity. Qed.

(** What is removed is gone. *)
Lemma lookup_remove ps : forall n,
  wf_tree n = true -> ps <> [] -> FS.lookup ps (FS.remove ps n) = None.
Proof.
  induction ps as [|c ps IH]; intros n Hwf Hne; [done|].
  destruct n as [data|es]; [by destruct ps|].
  destruct ps as [|c2 ps].
  - cbn [FS.remove FS.lookup]. rewrite assoc_del_entry; [done|].
    simpl in Hwf. by apply andb_prop in Hwf as [? _].
  - rewrite remove_step. destruct (FS.assoc c es) as [n1|] eqn:E.
    + cbn [FS.lookup]. rewrite assoc_set_entry. apply IH; [|done].
      by eapply wf_tree_child.
    + cbn [FS.lookup]. by rewrite E.
Qed.

Lemma assoc_del_entry_ne c c' es :
  c <> c' -> FS.assoc c' (FS.del_entry c es) = FS.assoc c' es.
Proof.
  intros Hne. induction es as [|[c0 n0] es IH]; simpl; [done|].
  destruct (String.eqb_spec c c0) as [->|Hc0].
  - destruct (String.eqb_spec c' c0); [congruence | done].
  - simpl. by rewrite IH.
Qed.

(** Removing one thing leaves every regular file that is not below it. *)
Lemma lookup_remove_file src : forall q n data,
  ~ src `prefix_of` q ->
  FS.lookup q n = Some (File data) -> FS.lookup q (FS.remove src n) = Some (File data).
Proof.
  induction src as [|c src IH]; intros q n data Hq Hl; [done|].
  destruct n as [d0|es]; [by destruct src|].
  destruct q as [|c' q]; [done|].
  destruct src as [|c2 src].
  - cbn [FS.remove FS.lookup] in *. rewrite assoc_del_entry_ne; [done|].
    intros ->. apply Hq. by apply prefix_cons, prefix_nil.
  - rewrite remove_step. destruct (FS.assoc c es) as [n1|] eqn:E; [|done].
    cbn [FS.lookup] in *. destruct (decide (c = c')) as [<-|Hne].
    + rewrite assoc_set_entry. rewrite E in Hl. apply IH; [|done].
      intros Hp. apply Hq. by apply prefix_cons.
    + by rewrite assoc_set_entry_ne.
Qed.

(** Placing one thing leaves every regular file that is not below it. *)
Lemma lookup_place_file dst v : forall q n n' data,
  FS.place dst v n = Some n' -> ~ dst `prefix_of` q ->
  FS.lookup q n = Some (File data) -> FS.lookup q n' = Some (File data).
Proof.
  induction dst as [|c dst IH]; intros q n n' data Hp Hq Hl; [done|].
  destruct n as [d0|es]; [by destruct dst|].
  destruct q as [|c' q]; [done|].
  assert (Hcase : c <> c' \/ (c = c' /\ ~ dst `prefix_of` q)).
  { destruct (decide (c = c')) as [<-|]; [right|by left].
    split; [done|]. intros H. apply Hq. by apply prefix_cons. }
  destruct dst as [|c2 dst].
  - injection Hp as <-. cbn [FS.lookup] in *.
    destruct Hcase as [Hne|[_ Hn]]; [by rewrite assoc_set_entry_ne|].
    exfalso. apply Hn, prefix_nil.
  - rewrite place_step in Hp. destruct (FS.assoc c es) as [n1|] eqn:E; [|done].
    destruct (FS.place (c2 :: dst) v n1) as [n2|] eqn:E2; [|done].
    injection Hp as <-. cbn [FS.lookup] in *.
    destruct Hcase as [Hne|[<- Hn]]; [by rewrite assoc_set_entry_ne|].
    rewrite assoc_set_entry. rewrite E in Hl. by eapply IH.
Qed.

(** Placing one thing leaves whatever lies beside it. *)
Lemma lookup_place_other dst v : forall q n n',
  FS.place dst v n = Some n' -> ~ dst `prefix_of` q -> ~ q `prefix_of` dst ->
  FS.lookup q n' = FS.lookup q n.
Proof.
  induction dst as [|c dst IH]; intros q n n' Hp Hq Hq'; [done|].
  destruct n as [d0|es]; [by destruct dst|].
  destruct q as [|c' q]; [exfalso; apply Hq', prefix_nil|].
  destruct dst as [|c2 dst].
  - injection Hp as <-. cbn [FS.lookup].
    rewrite assoc_set_entry_ne; [done|].
    intros ->. apply Hq. by apply prefix_cons, prefix_nil.
  - rewrite place_step in Hp. destruct (FS.assoc c es) as [n1|] eqn:E; [|done].
    destruct (FS.place (c2 :: dst) v n1) as [n2|] eqn:E2; [|done].
    injection Hp as <-. cbn [FS.lookup].
    destruct (decide (c = c')) as [<-|Hne]; [|by rewrite assoc_set_entry_ne].
    rewrite assoc_set_entry, E. eapply IH; [done| |].
    + intros H. apply Hq. by apply prefix_cons.
    + intros H. apply Hq'. by apply prefix_cons.
Qed.

(** Placing needs every directory on the way to be there. *)
Lemma place_needs_parents dst v : forall p n n',
  FS.place dst v n = Some n' -> p `prefix_of` dst -> p <> dst -> is_Some (FS.lookup p n).
Proof.
  induction dst as [|c dst IH]; intros p n n' Hp Hpre Hne; [done|].
  destruct p as [|c' p]; [by eexists|].
  destruct n as [d0|es]; [by destruct dst|].
  apply prefix_cons_inv_1 in Hpre as Hc. subst c'.
  apply prefix_cons_inv_2 in Hpre.
  destruct dst as [|c2 dst].
  - apply prefix_nil_inv in Hpre. by subst p.
  - rewrite place_step in Hp. destruct (FS.assoc c es) as [n1|] eqn:E; [|done].
    destruct (FS.place (c2 :: dst) v n1) as [n2|] eqn:E2; [|done].
    cbn [FS.lookup]. rewrite E. eapply IH; [done|done|]. congruence.
Qed.

(** What exists has everything above it. *)
Lemma lookup_above q : forall p n x,
  FS.lookup q n = Some x -> p `prefix_of` q -> is_Some (FS.lookup p n).
Proof.
  induction q as [|c q IH]; intros p n x Hl Hp.
  - apply prefix_nil_inv in Hp. subst p. by eexists.
  - destruct p as [|c' p]; [by eexists|].
    apply prefix_cons_inv_1 in Hp as Hc. subst c'. apply prefix_cons_inv_2 in Hp.
    cbn [FS.lookup] in *. destruct n as [|es]; [done|].
    destruct (FS.assoc c es) as [n1|]; [|done]. by eapply IH.
Qed.

(** Making directories leaves every regular file. *)
Lemma lookup_make_dirs_file ps : forall q n n' data,
  FS.make_dirs ps n = Some n' ->
  FS.lookup q n = Some (File data) -> FS.lookup q n' = Some (File data).
Proof.
  induction ps as [|c ps IH]; intros q n n' data Hm Hl.
  - destruct n; [done|]. by injection Hm as <-.
  - destruct n as [d0|es]; [done|]. cbn [FS.make_dirs] in Hm.
    destruct (FS.make_dirs ps _) as [n1|] eqn:E; [|done]. injection Hm as <-.
    destruct q as [|c' q]; [done|]. cbn [FS.lookup] in *.
    destruct (decide (c = c')) as [<-|Hne]; [|by rewrite assoc_set_entry_ne].
    rewrite assoc_set_entry. destruct (FS.assoc c es) as [n0|]; [|done].
    by eapply IH.
Qed.

(** Making directories makes a directory. *)
Lemma lookup_make_dirs ps : forall n n',
  FS.make_dirs ps n = Some n' -> exists es, FS.lookup ps n' = Some (Dir es).
Proof.
  induction ps as [|c ps IH]; intros n n' Hm.
  - destruct n as [|es]; [done|]. injection Hm as <-. by exists es.
  - destruct n as [d0|es]; [done|]. cbn [FS.make_dirs] in Hm.
    destruct (FS.make_dirs ps _) as [n1|] eqn:E; [|done]. injection Hm as <-.
    cbn [FS.lookup]. rewrite assoc_set_entry. by eapply IH.
Qed.

(** Making directories where nothing was makes an empty one. *)
Lemma lookup_make_dirs_fresh ps : forall n n',
  FS.make_dirs ps n = Some n' -> FS.lookup ps n = None ->
  FS.lookup ps n' = Some (Dir []).
Proof.
  induction ps as [|c ps IH]; intros n n' Hm Hl; [done|].
  destruct n as [d0|es]; [done|]. cbn [FS.make_dirs] in Hm.
  destruct (FS.make_dirs ps _) as [n1|] eqn:E; [|done]. injection Hm as <-.
  cbn [FS.lookup] in *. rewrite assoc_set_entry.
  destruct (FS.assoc c es) as [n0|]; cbn [default from_option id] in E.
  - by eapply IH.
  - destruct ps as [|c2 ps].
    + simpl in E. by injection E as <-.
    + by eapply IH.
Qed.

Lemma set_entry_names c v es :
  map fst (FS.set_entry c v es)
  = if existsb (String.eqb c) (map fst es) then map fst es else map fst es ++ [c].
Proof.
  induction es as [|[c0 n0] es IH]; simpl; [done|].
  destruct (String.eqb c c0); simpl; [done|].
  rewrite IH. by destruct (existsb _ _).
Qed.

Lemma existsb_snoc c l c' :
  existsb (String.eqb c) (l ++ [c']) = existsb (String.eqb c) l || String.eqb c c'.
Proof. rewrite existsb_app. simpl. by rewrite orb_false_r. Qed.

Lemma distinct_names_snoc l c :
  distinct_names l = true -> existsb (String.eqb c) l = false ->
  distinct_names (l ++ [c]) = true.
Proof.
  induction l as [|a l IH]; simpl; [done|].
  intros H Hc. apply andb_prop in H as [Ha Hl].
  apply orb_false_elim in Hc as [Hca Hc].
  rewrite existsb_snoc, IH by done. apply negb_true_iff in Ha. rewrite Ha. simpl.
  rewrite String.eqb_sym. by rewrite Hca.
Qed.

Lemma wf_tree_set_entry c v es :
  wf_tree (Dir es) = true -> wf_tree v = true -> wf_tree (Dir (FS.set_entry c v es)) = true.
Proof.
  cbn [wf_tree]. intros H Hv. apply andb_prop in H as [Hn Hes].
  apply andb_true_intro. split.
  - rewrite set_entry_names. destruct (existsb _ _) eqn:E; [done|].
    by apply distinct_names_snoc.
  - clear Hn. induction es as [|[c0 n0] es IH]; simpl in *.
    + by rewrite Hv.
    + apply andb_prop in Hes as [H0 Hes].
      destruct (String.eqb c c0); simpl; [by rewrite Hv | by rewrite H0, IH].
Qed.

(** Making directories keeps a tree well formed. *)
Lemma make_dirs_wf ps : forall n n',
  FS.make_dirs ps n = Some n' -> wf_tree n = true -> wf_tree n' = true.
Proof.
  induction ps as [|c ps IH]; intros n n' Hm Hwf.
  - destruct n; [done|]. by injection Hm as <-.
  - destruct n as [d0|es]; [done|]. cbn [FS.make_dirs] in Hm.
    destruct (FS.make_dirs ps _) as [n1|] eqn:E; [|done]. injection Hm as <-.
    apply wf_tree_set_entry; [done|]. eapply IH; [exact E|].
    destruct (FS.assoc c es) as [n0|] eqn:Ea; [by eapply wf_tree_child | done].
Qed.

Lemma mkdir_inv t p t' :
  FS.mkdir t p = Ok t' -> is_absolute p = false /\ FS.make_dirs (parts p) t = Some t'.
Proof.
  unfold FS.mkdir. destruct (is_absolute p); [done|].
  destruct (FS.make_dirs _ _); [by intros [= <-]|].
  by destruct (FS.stat _ _) as [[]|].
Qed.

Lemma read_text_inv t q data :
  FS.read_text t q = Some data <->
  is_absolute q = false /\ FS.lookup (parts q) t = Some (File data).
Proof.
  unfold FS.read_text, FS.stat. destruct (is_absolute q).
  - split; [done | by intros [? _]].
  - destruct (FS.lookup _ _) as [[d|es]|]; split; try done; try (by intros [_ ?]).
    + by intros [= ->].
    + by intros [_ [= ->]].
Qed.

Lemma exists_false_inv t p :
  FS.exists_ t p = false -> is_absolute p = false -> FS.lookup (parts p) t = None.
Proof.
  unfold FS.exists_, FS.stat. intros H Ha. rewrite Ha in H.
  by destruct (FS.lookup _ _).
Qed.

(** [mkdir] leaves every regular file as it is. *)
Lemma mkdir_keeps_file t p t' q data :
  FS.mkdir t p = Ok t' -> FS.read_text t q = Some data -> FS.read_text t' q = Some data.
Proof.
  intros Hm Hr. apply mkdir_inv in Hm as [_ Hm]. apply read_text_inv in Hr as [Ha Hl].
  apply read_text_inv. split; [done|]. by eapply lookup_make_dirs_file.
Qed.

(** [shutil.move] onto a path that does not exist leaves every regular
    file that is not below the source. *)
Lemma move_keeps_file t src dst t' q data :
  FS.move t src dst = Some t' -> FS.exists_ t dst = false ->
  ~ parts src `prefix_of` parts q ->
  FS.read_text t q = Some data -> FS.read_text t' q = Some data.
Proof.
  unfold FS.move. intros Hm Hd Hq Hr.
  destruct (FS.stat t src) as [v|]; [|done].
  destruct (is_absolute dst) eqn:Ha; [done|].
  destruct (parts src) as [|c ps] eqn:Es; [done|].
  apply read_text_inv in Hr as [Haq Hl]. apply read_text_inv. split; [done|].
  eapply lookup_place_file; [exact Hm| |by apply lookup_remove_file].
  intros Hp. apply exists_false_inv in Hd; [|done].
  destruct (lookup_above _ _ _ _ Hl Hp) as [x Hx]. congruence.
Qed.

(** With a well-formed tree, what [shutil.move] moved is no longer at
    the source. *)
Lemma move_consumes t src dst t' :
  wf_tree t = true -> FS.move t src dst = Some t' -> FS.exists_ t dst = false ->
  FS.exists_ t' src = false.
Proof.
  unfold FS.move, FS.exists_ at 2. intros Hwf Hm Hd.
  destruct (FS.stat t src) as [v|] eqn:Hs; [|done].
  destruct (is_absolute dst) eqn:Ha; [done|].
  destruct (parts src) as [|c ps] eqn:Es; [done|].
  unfold FS.stat in *. destruct (is_absolute src); [done|]. rewrite Es in *.
  assert (Hgone : FS.lookup (c :: ps) (FS.remove (c :: ps) t) = None)
    by (by apply lookup_remove).
  apply exists_false_inv in Hd; [|done].
  erewrite lookup_place_other; [by rewrite Hgone|exact Hm| |].
  - intros Hp. destruct (lookup_above _ _ _ _ Hs Hp) as [x Hx]. congruence.
  - intros Hp.
    assert (Hne : c :: ps <> parts dst) by (intros E; rewrite <- E in Hd; congruence).
    destruct (place_needs_parents _ _ _ _ _ Hm Hp Hne) as [x Hx]. congruence.
Qed.

End Tree.

(** ** The Renamer as a whole *)

Section RenamerRun.

Lemma for_each_rel {A} (R : State -> State -> Prop)
  (body : State -> A -> result State) (l : list A) :
  (forall st, R st st) ->
  (forall st1 st2 st3, R st1 st2 -> R st2 st3 -> R st1 st3) ->
  (forall st a st', body st a = Ok st' -> R st st') ->
  forall st st', for_each body l st = Ok st' -> R st st'.
Proof.
  intros Hrefl Htrans Hbody. induction l as [|a l IH]; intros st st' H.
  - injection H as <-. apply Hrefl.
  - cbn [for_each] in H. destruct (body st a) as [st1|e] eqn:E; [|done].
    cbn [bind] in H. eapply Htrans; [by eapply Hbody | by apply IH].
Qed.

Lemma books_kept_trans st1 st2 st3 :
  books_kept st1 st2 -> books_kept st2 st3 -> books_kept st1 st3.
Proof. unfold books_kept. intros (?&?&?&?&?&?) (?&?&?&?&?&?). repeat split; congruence. Qed.

Lemma convert_token_books filename wav_root out_root mapping st it st' :
  convert_token filename wav_root out_root mapping st it = Ok st' -> books_kept st st'.
Proof.
  unfold convert_token, books_kept. destruct it as [i token].
  destruct (Str.startswith "wem" token); [|by intros [= <-]].
  destruct (FS.mkdir _ _) as [t1|e]; [|done]. cbn [bind]. intros H.
  repeat (match type of H with
          | context [if ?b then _ else _] => destruct b
          | context [match ?o with Some _ => _ | None => _ end] => destruct o
          end);
    injection H as <-; by destruct st.
Qed.

Lemma convert_books_kept filename wav_root out_root mapping st st' :
  convert filename wav_root out_root mapping st = Ok st' -> books_kept st st'.
Proof.
  unfold convert. destruct (FS.read_text _ _).
  - apply (for_each_rel books_kept).
    + by intros [].
    + apply books_kept_trans.
    + intros ? ? ?. apply convert_token_books.
  - intros [= <-]. by destruct st.
Qed.

(** X5. The Renamer keeps no books: whatever a reference file holds,
    [convert] leaves the decoder invocations, all four counters and the
    failure ledger as they were. *)
Theorem renamer_keeps_books
  (filename : string) (wav_root out_root : Path) (mapping : gmap string string)
  (st st' : State) :
  convert filename wav_root out_root mapping st = Ok st' ->
  decoder_calls st' = decoder_calls st /\
  total_wems st' = total_wems st /\
  converted_count st' = converted_count st /\
  skipped_count st' = skipped_count st /\
  failed_count st' = failed_count st /\
  failed_log st' = failed_log st.
Proof. apply convert_books_kept. Qed.

Lemma staged_parts wav_root token :
  parts (wav_root // (PathLib.stem (PathLib.of_str token) +:+ ".wav"))
  = parts wav_root ++ [PathLib.stem (PathLib.of_str token) +:+ ".wav"].
Proof. by rewrite joinpath_wav by apply stem_free. Qed.

Lemma convert_token_files filename wav_root out_root mapping st it st' :
  convert_token filename wav_root out_root mapping st it = Ok st' ->
  files_kept wav_root st st'.
Proof.
  unfold convert_token, files_kept. destruct it as [i token].
  destruct (Str.startswith "wem" token); [|by intros [= <-]].
  destruct (FS.mkdir _ _) as [t1|e] eqn:Hmk; [|done]. cbn [bind]. state_simpl.
  intros H q data Hr Hq.
  assert (Hr1 : FS.read_text t1 q = Some data) by (by eapply mkdir_keeps_file).
  match type of H with (if ?b then _ else _) = _ => destruct b eqn:Ht end.
  { injection H as <-. by destruct st. }
  match type of H with (if ?b then _ else _) = _ => destruct b eqn:Hs end.
  2: { injection H as <-. by destruct st. }
  destruct (FS.move _ _ _) as [t2|] eqn:Hmv; injection H as <-;
    [|by destruct st].
  destruct st. state_simpl. eapply move_keeps_file; [exact Hmv|exact Ht| |exact Hr1].
  rewrite staged_parts. intros Hp. apply Hq.
  etrans; [|exact Hp]. by apply prefix_app_r.
Qed.

(** X6. The Renamer overwrites nothing and touches nothing outside the
    staging area: every regular file that is not below [wav_root] when
    [convert] starts is still there, with the same content, when it
    returns. *)
Theorem renamer_keeps_files
  (filename : string) (wav_root out_root : Path) (mapping : gmap string string)
  (st st' : State) (q : Path) (data : string) :
  convert filename wav_root out_root mapping st = Ok st' ->
  FS.read_text (fs st) q = Some data ->
  ~ parts wav_root `prefix_of` parts q ->
  FS.read_text (fs st') q = Some data.
Proof.
  unfold convert. intros H.
  assert (Hk : files_kept wav_root st st'); [|by apply Hk].
  destruct (FS.read_text (fs st) (_ // filename)).
  - revert H. apply (for_each_rel (files_kept wav_root)).
    + by intros ? ? ?.
    + intros st1 st2 st3 H12 H23 q0 d0 Hr Hq0. apply H23; [|done]. by apply H12.
    + intros ? ? ?. apply convert_token_files.
  - injection H as <-. intros ? ? ? ?. by destruct st.
Qed.

Lemma convert_tokens_no_wem filename wav_root out_root mapping st tokens : forall start,
  Forall (fun token => Str.startswith "wem" token = false) tokens ->
  for_each (convert_token filename wav_root out_root mapping)
    (enumerate_from start tokens) st = Ok st.
Proof.
  induction tokens as [|token tokens IH]; intros start Hall; [done|].
  apply Forall_cons in Hall as [Htok Hall].
  cbn [enumerate_from for_each]. unfold convert_token at 1. rewrite Htok.
  cbn [bind]. by apply IH.
Qed.

(** X7. A reference file that cannot be read costs one error record in
    the main log and nothing else, and a reference file none of whose
    tokens starts with "wem" (an empty one, say) leaves the state
    exactly as it was; neither raises. *)
Theorem renamer_without_references
  (filename : string) (wav_root out_root : Path) (mapping : gmap string string)
  (st : State) :
  (FS.read_text (fs st) (PathLib.of_str "txtp" // filename) = None ->
   convert filename wav_root out_root mapping st
   = Ok (log (FailedToRead (PathLib.of_str "txtp" // filename)) st)) /\
  (forall data,
     FS.read_text (fs st) (PathLib.of_str "txtp" // filename) = Some data ->
     Forall (fun token => Str.startswith "wem" token = false)
       (Str.split " " (Str.replace Str.LF " " data)) ->
     convert filename wav_root out_root mapping st = Ok st).
Proof.
  unfold convert. split.
  - by intros ->.
  - intros data -> Hall. by apply convert_tokens_no_wem.
Qed.

Lemma string_app_assoc (a b c : string) : (a +:+ b) +:+ c = a +:+ (b +:+ c).
Proof.
  induction a as [|x a IH]; [done|].
  change (String x ((a +:+ b) +:+ c) = String x (a +:+ (b +:+ c))). by rewrite IH.
Qed.

Lemma destination_name (s n : string) :
  s +:+ "_" +:+ n +:+ ".wav" = (s +:+ "_" +:+ n) +:+ ".wav".
Proof. by rewrite !string_app_assoc. Qed.

Lemma string_of_uint_free d : Str.contains "/" (NilEmpty.string_of_uint d) = false.
Proof. induction d; simpl; done. Qed.

Lemma of_nat_inj i j : Str.of_nat i = Str.of_nat j -> i = j.
Proof.
  unfold Str.of_nat. intros H.
  apply (f_equal NilEmpty.uint_of_string) in H. rewrite !NilEmpty.usu in H.
  injection H as H. apply (f_equal Nat.of_uint) in H.
  by rewrite !DecimalNat.Unsigned.of_to in H.
Qed.

Lemma split_by_pieces_free c f s :
  Str.contains c s = false ->
  Forall (fun w => Str.contains c w = false) (Str.split_by f s).
Proof.
  induction s as [|a s IH]; simpl; [by repeat constructor|].
  intros H. apply orb_false_elim in H as [Ha Hs]. specialize (IH Hs).
  destruct (f a); [by constructor|].
  destruct (Str.split_by f s) as [|w ws].
  - constructor; [|done]. simpl. by rewrite Ha.
  - apply Forall_cons in IH as [Hw Hws]. constructor; [|done]. simpl. by rewrite Ha.
Qed.

Lemma reference_stem_free filename :
  Str.contains "/" filename = false ->
  Str.contains "/" (hd "" (Str.split "." filename)) = false.
Proof.
  intros H. pose proof (split_by_pieces_free "/" (Ascii.eqb ".") filename H) as Hall.
  unfold Str.split. destruct (Str.split_by _ filename); [done|].
  by apply Forall_cons in Hall as [? _].
Qed.

(** The destination's last part is the name [<S>_<i>.wav] itself. *)
Lemma destination_parts out_folder filename i :
  Str.contains "/" filename = false ->
  parts (out_folder // (hd "" (Str.split "." filename) +:+ "_" +:+ Str.of_nat i +:+ ".wav"))
  = parts out_folder
    ++ [hd "" (Str.split "." filename) +:+ "_" +:+ Str.of_nat i +:+ ".wav"].
Proof.
  intros H.
  rewrite destination_name, joinpath_wav; [done|].
  rewrite !contains_app, reference_stem_free by done.
  unfold Str.of_nat. by rewrite string_of_uint_free.
Qed.

(** X8. Within one reference file two token positions never share a
    destination: whatever the two labels, the paths
    [out_root/label/<S>_<i>.wav] for different positions [i] differ. *)
Theorem destinations_differ_by_position
  (filename : string) (out_root : Path) (label1 label2 : string) (i1 i2 : nat) :
  Str.contains "/" filename = false ->
  i1 <> i2 ->
  out_root // label1 // (hd "" (Str.split "." filename) +:+ "_" +:+ Str.of_nat i1 +:+ ".wav")
  <> out_root // label2
       // (hd "" (Str.split "." filename) +:+ "_" +:+ Str.of_nat i2 +:+ ".wav").
Proof.
  intros Hfile Hne Heq. apply (f_equal parts) in Heq.
  rewrite !destination_parts in Heq by done.
  apply app_inj_tail in Heq as [_ Heq].
  rewrite !destination_name in Heq. apply string_app_inv_tail in Heq.
  apply (inj (String.app _)) in Heq. apply (inj (String.app _)) in Heq.
  by apply of_nat_inj in Heq.
Qed.

(** X9. A rename is a move, not a copy: when a step of the Renamer logs
    [Renamed a b] over a well-formed tree, [a] is the staged file of the
    token, it no longer exists afterwards, and [b] holds the content it
    had. A later token of the same stem will therefore not find it. *)
Theorem renamed_file_is_moved
  (filename : string) (wav_root out_root : Path) (mapping : gmap string string)
  (i : nat) (token : string) (st st' : State) (a b : Path) :
  wf_tree (fs st) = true ->
  convert_token filename wav_root out_root mapping st (i, token) = Ok st' ->
  main_log st' = main_log st ++ [Renamed a b] ->
  a = wav_root // (PathLib.stem (PathLib.of_str token) +:+ ".wav") /\
  FS.exists_ (fs st') a = false /\
  (forall data, FS.read_text (fs st) a = Some data ->
                FS.read_text (fs st') b = Some data).
Proof.
  intros Hwf. unfold convert_token.
  destruct (Str.startswith "wem" token).
  2: { intros [= <-] H. rewrite <- (app_nil_r (main_log st)) in H at 1.
       by apply app_inv_head in H. }
  destruct (FS.mkdir _ _) as [t1|e] eqn:Hmk; [|done]. cbn [bind]. state_simpl.
  assert (Hwf1 : wf_tree t1 = true).
  { apply mkdir_inv in Hmk as [_ Hmk]. by eapply make_dirs_wf. }
  intros H.
  match type of H with (if ?c then _ else _) = _ => destruct c eqn:Ht end.
  { injection H as <-. destruct st. state_simpl. intros E.
    by apply app_inv_head in E. }
  match type of H with (if ?c then _ else _) = _ => destruct c eqn:Hs end.
  2: { injection H as <-. destruct st. state_simpl. intros E.
       by apply app_inv_head in E. }
  destruct (FS.move _ _ _) as [t2|] eqn:Hmv; injection H as <-.
  2: { destruct st. state_simpl. intros E. by apply app_inv_head in E. }
  destruct st. state_simpl. intros E. apply app_inv_head in E.
  injection E as <- <-. split; [done|]. split.
  - by eapply move_consumes.
  - intros data Hr. eapply mkdir_keeps_file in Hr; [|exact Hmk].
    unfold FS.read_text in *. by rewrite (move_stat _ _ _ _ Hmv).
Qed.

End RenamerRun.

(** ** The staging area *)

Section Staging.

Lemma temp_wem_root_parts temp_root :
  parts (temp_root // "wem") = parts temp_root ++ ["wem"].
Proof. reflexivity. Qed.

(** X10. Every run of the Extractor starts over an empty staging area:
    once lines 64-67 have run over a well-formed tree, [temp_root/wem]
    is a directory with nothing in it, whatever was there before. If a
    regular file lies in its place, [shutil.rmtree] raises and the
    Extractor ends there. *)
Theorem staging_area_starts_empty (temp_root : Path) (t : node) :
  (forall t',
     wf_tree t = true ->
     clean_temp_folder t (temp_root // "wem") = Ok t' ->
     FS.stat t' (temp_root // "wem") = Some (Dir [])) /\
  (forall data (vg : Decoder) input_root st,
     fs st = t ->
     FS.stat t (temp_root // "wem") = Some (File data) ->
     wem_to_wav vg input_root temp_root st
     = Raise (NotADirectoryError (temp_root // "wem"))).
Proof.
  split.
  - intros t' Hwf. unfold clean_temp_folder.
    destruct (FS.exists_ t _) eqn:Hex.
    + unfold FS.rmtree. destruct (FS.stat t _) as [[d|es]|] eqn:Hs; try done.
      cbn [bind]. intros Hmk. apply mkdir_inv in Hmk as [Ha Hmk].
      unfold FS.stat. rewrite Ha. eapply lookup_make_dirs_fresh; [exact Hmk|].
      apply lookup_remove; [done|]. rewrite temp_wem_root_parts. by destruct (parts temp_root).
    + cbn [bind]. intros Hmk. apply mkdir_inv in Hmk as [Ha Hmk].
      unfold FS.stat. rewrite Ha. eapply lookup_make_dirs_fresh; [exact Hmk|].
      by apply exists_false_inv.
  - intros data vg input_root st <- Hs. unfold wem_to_wav, clean_temp_folder, FS.exists_, FS.rmtree.
    by rewrite Hs.
Qed.

End Staging.

(** ** The retry pass as a whole *)

Section RetrierRun.

Variable vg : Decoder.

Lemma retry_file_attempts temp_wav_root nf st entry :
  let r := retry_file vg temp_wav_root (nf, st) entry in
  exists tried,
    tried `sublist_of` [entry] /\
    decoder_calls r.2 = decoder_calls st ++ map (retry_call temp_wav_root) tried /\
    r.1 + converted_count r.2 = nf + converted_count st + length tried /\
    nf <= r.1 /\
    total_wems r.2 = total_wems st.
Proof.
  unfold retry_file, subprocess_run, retry_call.
  destruct st as [t0 tw cc sc fc fl ml dc fo]. state_simpl.
  destruct (FS.exists_ t0 _).
  { exists []. close_books. }
  destruct (vg dc t0 _) as [res t]. state_simpl.
  destruct (negb (returncode res =? 0)%Z || negb (FS.exists_ t _));
    exists [entry]; close_books.
Qed.

Lemma retry_loop_attempts temp_wav_root entries : forall nf st,
  let r := fold_left (retry_file vg temp_wav_root) entries (nf, st) in
  exists tried,
    tried `sublist_of` entries /\
    decoder_calls r.2 = decoder_calls st ++ map (retry_call temp_wav_root) tried /\
    r.1 + converted_count r.2 = nf + converted_count st + length tried /\
    nf <= r.1 /\
    total_wems r.2 = total_wems st.
Proof.
  induction entries as [|e entries IH]; intros nf st; cbv zeta.
  - exists []. cbn [fold_left fst snd map length]. rewrite app_nil_r.
    repeat split; try lia; done.
  - cbn [fold_left].
    destruct (retry_file_attempts temp_wav_root nf st e) as (t1 & Hs1 & Hc1 & Hn1 & Hm1 & Hw1).
    destruct (retry_file vg temp_wav_root (nf, st) e) as [nf1 st1]. cbn [fst snd] in *.
    destruct (IH nf1 st1) as (t2 & Hs2 & Hc2 & Hn2 & Hm2 & Hw2).
    exists (t1 ++ t2). rewrite map_app, length_app.
    repeat split; try lia; try congruence.
    + by apply (sublist_app t1 [e]).
    + by rewrite Hc2, Hc1, app_assoc.
Qed.

(** X11. The retry pass tries each ledger entry at most once: the
    decoder invocations it adds are those of some of the entries it
    read, in order and one each, and every one of them ends up either in
    the failed count or as one more conversion. *)
Theorem retry_tries_each_entry_once
  (temp_wav_root : Path) (st : State) (records : list string) :
  failed_log st = Some records ->
  let st' := retry_failed_conversions vg temp_wav_root st in
  exists tried,
    tried `sublist_of` read_failed_files records /\
    decoder_calls st'
    = decoder_calls st
      ++ map (fun entry =>
                decoder_argv
                  (temp_wav_root // (PathLib.stem (PathLib.of_str entry) +:+ ".wav"))
                  (PathLib.of_str entry)) tried /\
    failed_count st' + converted_count st' = converted_count st + length tried.
Proof.
  intros Hfl st'. subst st'. unfold retry_failed_conversions. rewrite Hfl.
  destruct (retry_loop_attempts temp_wav_root (read_failed_files records) 0
              (set_failed_log (Some []) (log RetryingFailed st)))
    as (tried & Hs & Hc & Hn & _).
  destruct (fold_left _ _ _) as [new_failures st1]. cbn [fst snd] in *.
  exists tried. destruct st, st1. state_simpl. by repeat split.
Qed.

End RetrierRun.

(** ** Tokens, paths and the ledger's text *)

Section Text.

Lemma split_by_nonempty f s : Str.split_by f s <> [].
Proof. induction s as [|a s IH]; simpl; [done|]. destruct (f a); [done|]. by destruct (Str.split_by f s). Qed.

Lemma join_cons sep w w2 ws :
  Str.join sep (w :: w2 :: ws) = w +:+ sep +:+ Str.join sep (w2 :: ws).
Proof. reflexivity. Qed.

(** Joining the pieces of a split with the separator gives the text back. *)
Lemma join_split c s : Str.join (String c "") (Str.split c s) = s.
Proof.
  unfold Str.split. induction s as [|a s IH]; [done|].
  cbn [Str.split_by]. pose proof (split_by_nonempty (Ascii.eqb c) s) as Hne.
  destruct (Ascii.eqb_spec c a) as [<-|Hca].
  - destruct (Str.split_by (Ascii.eqb c) s) as [|w ws]; [done|].
    rewrite join_cons, IH. reflexivity.
  - destruct (Str.split_by (Ascii.eqb c) s) as [|w [|w2 ws]]; [done| |].
    + cbn [Str.join] in *. by rewrite IH.
    + rewrite join_cons in *. rewrite <- IH. reflexivity.
Qed.

Lemma replace_free a b s : a <> b -> Str.contains a (Str.replace a b s) = false.
Proof.
  intros Hne. induction s as [|c s IH]; [done|]. cbn [Str.replace Str.contains].
  rewrite IH, orb_false_r. destruct (Ascii.eqb_spec c a) as [->|Hc].
  - by apply Ascii.eqb_neq.
  - apply Ascii.eqb_neq. congruence.
Qed.

(** X12. Tokenising loses nothing and leaves clean tokens: joining the
    tokens of a reference file with single spaces gives its content back
    with every newline turned into a space, there is always at least one
    token, and no token holds a space or a newline. *)
Theorem tokens_round_trip (data : string) :
  Str.join " " (tokens_of data) = Str.replace Str.LF " " data /\
  tokens_of data <> [] /\
  Forall (fun token => Str.contains " " token = false
                       /\ Str.contains Str.LF token = false) (tokens_of data).
Proof.
  unfold tokens_of. split; [apply join_split|]. split; [apply split_by_nonempty|].
  pose proof (split_free " " (Str.replace Str.LF " " data)) as Hsp.
  pose proof (split_by_pieces_free Str.LF (Ascii.eqb " ") (Str.replace Str.LF " " data)
                (replace_free Str.LF " " data ltac:(done))) as Hlf.
  unfold Str.split in *.
  induction (Str.split_by _ _) as [|w ws IH]; [done|].
  apply Forall_cons in Hsp as [? ?]. apply Forall_cons in Hlf as [? ?].
  constructor; [done | by apply IH].
Qed.

Lemma split_app_sep c w rest :
  Str.contains c w = false ->
  Str.split c (w +:+ String c rest) = w :: Str.split c rest.
Proof.
  unfold Str.split. induction w as [|a w IH]; intros H.
  - change ("" +:+ String c rest) with (String c rest). cbn [Str.split_by].
    by rewrite Ascii.eqb_refl.
  - cbn [Str.contains] in H. apply orb_false_elim in H as [Ha Hw].
    change (String a w +:+ String c rest) with (String a (w +:+ String c rest)).
    cbn [Str.split_by]. rewrite Ha, (IH Hw). done.
Qed.

Lemma split_join c ws :
  ws <> [] -> Forall (fun w => Str.contains c w = false) ws ->
  Str.split c (Str.join (String c "") ws) = ws.
Proof.
  induction ws as [|w [|w2 ws] IH]; intros Hne Hall; [done| |].
  - apply Forall_cons in Hall as [Hw _]. by apply split_single.
  - apply Forall_cons in Hall as [Hw Hall]. rewrite join_cons.
    change (w +:+ String c "" +:+ Str.join (String c "") (w2 :: ws))
      with (w +:+ String c (Str.join (String c "") (w2 :: ws))).
    rewrite split_app_sep by done. f_equal. by apply IH.
Qed.

Lemma filter_keep_all ws :
  Forall (fun c => PathLib.keep_part c = true /\ Str.contains "/" c = false) ws ->
  List.filter PathLib.keep_part ws = ws.
Proof.
  induction ws as [|w ws IH]; intros Hall; [done|].
  apply Forall_cons in Hall as [[Hk _] Hall]. simpl. by rewrite Hk, IH.
Qed.

Lemma join_starts_free w ws :
  PathLib.keep_part w = true -> Str.contains "/" w = false ->
  Str.startswith "/" (Str.join "/" (w :: ws)) = false.
Proof.
  intros Hk Hw. destruct w as [|a w]; [done|].
  cbn [Str.contains] in Hw. apply orb_false_elim in Hw as [Ha _].
  destruct ws as [|w2 ws].
  - cbn [Str.join]. by rewrite startswith_cons.
  - rewrite join_cons.
    change (String a w +:+ "/" +:+ Str.join "/" (w2 :: ws))
      with (String a (w +:+ "/" +:+ Str.join "/" (w2 :: ws))).
    by rewrite startswith_cons.
Qed.

Lemma of_str_wf s : wf_path (PathLib.of_str s).
Proof.
  unfold wf_path, PathLib.of_str. cbn [parts].
  pose proof (split_free "/" s) as H.
  induction (Str.split "/" s) as [|w ws IH]; [done|].
  apply Forall_cons in H as [Hw Hws]. simpl.
  destruct (PathLib.keep_part w) eqn:Hk; [|by apply IH].
  constructor; [done | by apply IH].
Qed.

Lemma of_str_str p : wf_path p -> PathLib.of_str (PathLib.str p) = p.
Proof.
  destruct p as [[|] ps]; unfold wf_path, PathLib.str, PathLib.of_str;
    cbn [parts is_absolute]; intros Hwf.
  - change ("/" +:+ Str.join "/" ps) with (String "/" (Str.join "/" ps)).
    rewrite startswith_cons, Ascii.eqb_refl. f_equal.
    destruct ps as [|w ws]; [done|].
    change (String "/" (Str.join "/" (w :: ws)))
      with ("" +:+ String "/" (Str.join "/" (w :: ws))).
    rewrite split_app_sep by done. rewrite split_join; [|done|].
    + change (List.filter PathLib.keep_part ("" :: w :: ws))
        with (List.filter PathLib.keep_part (w :: ws)).
      by apply filter_keep_all.
    + eapply Forall_impl; [exact Hwf|]. by intros ? [_ ?].
  - destruct ps as [|w ws]; [done|].
    pose proof Hwf as Hwf'. apply Forall_cons in Hwf' as [[Hk Hw] _].
    rewrite join_starts_free by done. f_equal.
    rewrite split_join; [by apply filter_keep_all|done|].
    eapply Forall_impl; [exact Hwf|]. by intros ? [_ ?].
Qed.

(** X13. A path survives being written out and read back:
    [Path(str(p))] is [p] for every path [p] whose parts are proper
    components, and the paths that [Path(s)] and [p / s] build are of
    that kind. *)
Theorem path_str_round_trip (p : Path) :
  (wf_path p -> PathLib.of_str (PathLib.str p) = p) /\
  (forall s, wf_path (PathLib.of_str s)) /\
  (forall s, wf_path p -> wf_path (p // s)).
Proof.
  split; [apply of_str_str|]. split; [apply of_str_wf|].
  intros s Hwf. unfold PathLib.joinpath.
  destruct (is_absolute (PathLib.of_str s)) eqn:Ha; [apply of_str_wf|].
  unfold wf_path. cbn [parts]. apply Forall_app. split; [done | apply of_str_wf].
Qed.

Lemma split_by_breaks_single s :
  Str.contains Str.LF s = false -> Str.contains Str.CR s = false ->
  Str.split_by (fun c => Ascii.eqb c Str.LF || Ascii.eqb c Str.CR) s = [s].
Proof.
  induction s as [|a s IH]; [done|]. cbn [Str.contains Str.split_by].
  intros H1 H2. apply orb_false_elim in H1 as [Ha1 Hs1].
  apply orb_false_elim in H2 as [Ha2 Hs2].
  rewrite (Ascii.eqb_sym a Str.LF), (Ascii.eqb_sym a Str.CR), Ha1, Ha2.
  cbn [orb]. by rewrite IH.
Qed.

(** X14. What the Extractor writes to the ledger, the retry pass reads
    back as the same path: for a path of proper components whose text
    holds no line break and neither starts nor ends with white space,
    the one record [str(p)] is read back as the one entry [p]. *)
Theorem ledger_round_trip (p : Path) :
  wf_path p ->
  Str.strip (PathLib.str p) = PathLib.str p ->
  Str.contains Str.LF (PathLib.str p) = false ->
  Str.contains Str.CR (PathLib.str p) = false ->
  map PathLib.of_str (read_failed_files [PathLib.str p]) = [p].
Proof.
  intros Hwf Hstrip Hlf Hcr. unfold read_failed_files.
  cbn [flat_map]. rewrite app_nil_r, split_by_breaks_single by done.
  cbn [map]. rewrite Hstrip. cbn [List.filter].
  destruct (String.eqb_spec (PathLib.str p) "") as [He|_].
  - exfalso. pose proof (of_str_str p Hwf) as H. rewrite He in H.
    rewrite <- H in He. discriminate.
  - cbn [negb map]. by rewrite of_str_str.
Qed.

End Text.

(** ** The ledger file *)

Section Ledger.

Variable vg : Decoder.

Lemma string_length_app (a b : string) :
  String.length (a +:+ b) = String.length a + String.length b.
Proof.
  induction a as [|c a IH]; [done|].
  change (String c a +:+ b) with (String c (a +:+ b)). cbn [String.length]. by rewrite IH.
Qed.

Lemma ledger_lines_app l1 l2 :
  ledger_lines (l1 ++ l2) = ledger_lines l1 +:+ ledger_lines l2.
Proof.
  induction l1 as [|r l1 IH]; [done|].
  cbn [app]. unfold ledger_lines in *. cbn [fold_right]. rewrite IH.
  by rewrite string_app_assoc.
Qed.

Lemma ledger_lines_size l1 l2 :
  String.length (ledger_lines (l1 ++ l2))
  = String.length (ledger_lines l1) + String.length (ledger_lines l2).
Proof. by rewrite ledger_lines_app, string_length_app. Qed.

Lemma ledger_line_size r : String.length (ledger_lines [r]) = String.length r + 1.
Proof. unfold ledger_lines. cbn [fold_right]. rewrite string_length_app. cbn. lia. Qed.

(** Cutting at a separator cuts the two sides on their own. *)
Lemma split_by_app_sep f w c rest :
  f c = true ->
  Str.split_by f (w +:+ String c rest) = Str.split_by f w ++ Str.split_by f rest.
Proof.
  intros Hc. induction w as [|a w IH].
  - change ("" +:+ String c rest) with (String c rest). cbn [Str.split_by]. by rewrite Hc.
  - change (String a w +:+ String c rest) with (String a (w +:+ String c rest)).
    cbn [Str.split_by]. rewrite IH. destruct (f a); [done|].
    pose proof (split_by_nonempty f w) as Hne.
    by destruct (Str.split_by f w).
Qed.

Lemma ledger_lines_split records :
  Str.split_by (fun c => Ascii.eqb c Str.LF || Ascii.eqb c Str.CR) (ledger_lines records)
  = flat_map (Str.split_by (fun c => Ascii.eqb c Str.LF || Ascii.eqb c Str.CR)) records
    ++ [""].
Proof.
  induction records as [|r records IH]; [done|].
  unfold ledger_lines in *. cbn [fold_right flat_map].
  rewrite split_by_app_sep by done. by rewrite IH, app_assoc.
Qed.

(** A ledger file that holds its records and nothing else is read back,
    as line 174 reads it, as those records are. *)
Lemma ledger_read_back records :
  read_failed_files [ledger_lines records] = read_failed_files records.
Proof.
  unfold read_failed_files. cbn [flat_map]. rewrite app_nil_r, ledger_lines_split.
  rewrite map_app, List.filter_app. cbn. by rewrite app_nil_r.
Qed.

(** While the handler stands at the end of the file, the file holds its
    records and nothing else. *)
Lemma failed_log_text_in_step st records :
  failed_log st = Some records ->
  failed_offset st = String.length (ledger_lines records) ->
  failed_log_text st = Some (ledger_lines records).
Proof.
  unfold failed_log_text. intros -> ->. destruct records as [|r records]; [done|].
  by rewrite Nat.sub_diag.
Qed.

Lemma failed_logger_error_in_step line st :
  ledger_in_step st -> ledger_in_step (failed_logger_error line st).
Proof.
  intros (records & Hl & Ho). exists (records ++ [line]).
  destruct st as [t0 tw cc sc fc fl ml dc fo]. state_simpl. subst. split; [done|].
  by rewrite ledger_lines_size, ledger_line_size.
Qed.

Lemma ledger_in_step_kept st st' :
  failed_log st' = failed_log st -> failed_offset st' = failed_offset st ->
  ledger_in_step st -> ledger_in_step st'.
Proof. intros Hl Ho (records & Hr & Hn). exists records. by rewrite Hl, Ho. Qed.

(** The Extractor leaves the handler at the end of the file. *)
Lemma wem_to_wav_step_in_step input_root temp_wem_root m st df :
  ledger_in_step st ->
  ledger_in_step (wem_to_wav_step vg input_root temp_wem_root (m, st) df).2.
Proof.
  intros Hst. destruct df as [d f].
  unfold wem_to_wav_step, wem_to_wav_file, subprocess_run. cbn [fst snd].
  destruct (FS.exists_ (fs st) _ || FS.exists_ (fs st) _).
  { cbn [snd]. eapply ledger_in_step_kept; [| |exact Hst]; by destruct st. }
  destruct (String.eqb _ ".wem").
  - cbn [log fs decoder_calls].
    destruct (vg (decoder_calls st) (fs st) _) as [res t].
    destruct (negb (returncode res =? 0)%Z || negb (FS.exists_ _ _)); cbn [snd].
    + apply failed_logger_error_in_step.
      eapply ledger_in_step_kept; [| |exact Hst]; by destruct st.
    + eapply ledger_in_step_kept; [| |exact Hst]; by destruct st.
  - destruct (String.eqb _ ".wav"); [|done].
    destruct (FS.copy2 (fs st) _ _) as [t|]; cbn [snd].
    + eapply ledger_in_step_kept; [| |exact Hst]; by destruct st.
    + apply failed_logger_error_in_step.
      eapply ledger_in_step_kept; [| |exact Hst]; by destruct st.
Qed.

Lemma wem_to_wav_steps_in_step input_root temp_wem_root l : forall m st,
  ledger_in_step st ->
  ledger_in_step (fold_left (wem_to_wav_step vg input_root temp_wem_root) l (m, st)).2.
Proof.
  induction l as [|df l IH]; intros m st Hst; [done|].
  cbn [fold_left].
  pose proof (wem_to_wav_step_in_step input_root temp_wem_root m st df Hst) as H.
  destruct (wem_to_wav_step vg input_root temp_wem_root (m, st) df) as [m1 st1].
  by apply IH.
Qed.

Lemma wem_to_wav_in_step input_root temp_root st m st' :
  wem_to_wav vg input_root temp_root st = Ok (m, st') ->
  ledger_in_step st -> ledger_in_step st'.
Proof.
  unfold wem_to_wav. destruct (clean_temp_folder _ _) as [t|e]; [|done]. cbn [bind].
  rewrite wem_to_wav_walk_as_steps. intros [= Hrun] Hst.
  pose proof (wem_to_wav_steps_in_step input_root (temp_root // "wem")
                (files_walked (FS.os_walk t input_root)) ∅ (set_fs t st)) as H.
  rewrite Hrun in H. apply H.
  eapply ledger_in_step_kept; [| |exact Hst]; by destruct st.
Qed.

(** The Renamer does not touch the ledger. *)
Lemma convert_in_step filename wav_root out_root mapping st st' :
  convert filename wav_root out_root mapping st = Ok st' ->
  ledger_in_step st -> ledger_in_step st'.
Proof.
  intros Hrun Hst.
  assert (H : failed_log st' = failed_log st /\ failed_offset st' = failed_offset st).
  { revert Hrun. unfold convert. destruct (FS.read_text _ _); [|by intros [= <-]; destruct st].
    apply (for_each_rel
             (fun st st' => failed_log st' = failed_log st /\
                            failed_offset st' = failed_offset st)).
    - done.
    - intros st1 st2 st3 [H1 H2] [H3 H4]. split; congruence.
    - intros st1 [i token] st2. unfold convert_token.
      destruct (Str.startswith "wem" token); [|by intros [= <-]].
      destruct (FS.mkdir _ _) as [t1|e]; [|done]. cbn [bind]. intros H.
      repeat (match type of H with
              | context [if ?b then _ else _] => destruct b
              | context [match ?o with Some _ => _ | None => _ end] => destruct o
              end);
        injection H as <-; by destruct st1. }
  destruct H as [Hl Ho]. by eapply ledger_in_step_kept.
Qed.

(** In every run the retry pass is entered with the handler at the end
    of the ledger file: the file then holds the records written so far
    and nothing else, and what line 174 reads from it is what
    [read_failed_files] makes of those records. *)
Lemma retry_pass_reads_the_file decoder_present t st0 mapping st1 st2 :
  startup decoder_present t = Ok st0 ->
  wem_to_wav vg (PathLib.of_str "txtp/wem") (PathLib.of_str "out_temp")
    (log StartingConversion st0) = Ok (mapping, st1) ->
  for_each
    (fun st file_path =>
       convert (PathLib.name file_path) (PathLib.of_str "out_temp" // "wem")
         (PathLib.of_str "out") mapping st)
    (FS.glob_suffix (fs (log StartingRenaming st1)) (PathLib.of_str "txtp") ".txtp")
    (log StartingRenaming st1) = Ok st2 ->
  exists records,
    failed_log st2 = Some records /\
    failed_log_text st2 = Some (ledger_lines records) /\
    read_failed_files [ledger_lines records] = read_failed_files records.
Proof.
  intros H0 H1 H2.
  assert (Hst0 : ledger_in_step (log StartingConversion st0)).
  { revert H0. unfold startup.
    destruct (FS.mkdir t _) as [t1|]; [|done]. cbn [bind].
    destruct (FS.mkdir t1 _) as [t2|]; [|done]. cbn [bind].
    destruct decoder_present; [|done]. intros [= <-]. by exists []. }
  apply (wem_to_wav_in_step _ _ _ _ _ H1) in Hst0.
  assert (Hst1 : ledger_in_step (log StartingRenaming st1)).
  { eapply ledger_in_step_kept; [| |exact Hst0]; by destruct st1. }
  assert (Hst2 : ledger_in_step st2).
  { revert H2 Hst1.
    apply (for_each_rel (fun st st' => ledger_in_step st -> ledger_in_step st')).
    - done.
    - intros st3 st4 st5 Ha Hb Hc. by apply Hb, Ha.
    - intros st3 a st4. apply convert_in_step. }
  destruct Hst2 as (records & Hl & Ho). exists records.
  split; [done|]. split; [by apply failed_log_text_in_step | apply ledger_read_back].
Qed.

(** What a ledger entry of the retry pass does to the ledger. *)
Lemma retry_file_writes temp_wav_root nf st entry records :
  failed_log st = Some records ->
  let r := retry_file vg temp_wav_root (nf, st) entry in
  exists written,
    failed_log r.2 = Some (records ++ written) /\
    failed_offset r.2 = failed_offset st + String.length (ledger_lines written).
Proof.
  intros Hl. unfold retry_file, subprocess_run.
  destruct st as [t0 tw cc sc fc fl ml dc fo]. state_simpl. subst fl.
  destruct (FS.exists_ t0 _).
  { exists []. state_simpl. by rewrite app_nil_r, Nat.add_0_r. }
  destruct (vg dc t0 _) as [res t]. state_simpl.
  destruct (negb (returncode res =? 0)%Z || negb (FS.exists_ t _)); state_simpl.
  - eexists [_]. split; [reflexivity|]. by rewrite ledger_line_size.
  - exists []. by rewrite app_nil_r, Nat.add_0_r.
Qed.

Lemma retry_loop_writes temp_wav_root entries : forall nf st records,
  failed_log st = Some records ->
  let r := fold_left (retry_file vg temp_wav_root) entries (nf, st) in
  exists written,
    failed_log r.2 = Some (records ++ written) /\
    failed_offset r.2 = failed_offset st + String.length (ledger_lines written).
Proof.
  induction entries as [|e entries IH]; intros nf st records Hl; cbv zeta.
  - exists []. cbn [fold_left snd]. by rewrite app_nil_r, Nat.add_0_r.
  - cbn [fold_left].
    destruct (retry_file_writes temp_wav_root nf st e records Hl) as (w1 & Hl1 & Ho1).
    destruct (retry_file vg temp_wav_root (nf, st) e) as [nf1 st1]. cbn [snd] in *.
    destruct (IH nf1 st1 _ Hl1) as (w2 & Hl2 & Ho2).
    exists (w1 ++ w2). rewrite Hl2, Ho2, Ho1, ledger_lines_size.
    split; [by rewrite app_assoc | lia].
Qed.

(** Every retry pass over an existing ledger leaves the file with a
    hole: whatever it writes back comes after as many NUL bytes as the
    handler had written before the pass. *)
Lemma retry_pass_leaves_hole temp_wav_root st records :
  failed_log st = Some records ->
  let st' := retry_failed_conversions vg temp_wav_root st in
  exists written,
    failed_log st' = Some written /\
    failed_offset st' = failed_offset st + String.length (ledger_lines written) /\
    failed_log_text st'
    = Some (match written with
            | [] => ""
            | _ => Str.nul_run (failed_offset st) +:+ ledger_lines written
            end).
Proof.
  intros Hl. unfold retry_failed_conversions. rewrite Hl.
  destruct (retry_loop_writes temp_wav_root (read_failed_files records) 0
              (set_failed_log (Some []) (log RetryingFailed st)) [] eq_refl)
    as (written & Hw & Ho).
  destruct (fold_left _ _ _) as [new_failures st1]. cbn [snd app] in *.
  exists written. unfold failed_log_text.
  destruct st1 as [t1 tw1 cc1 sc1 fc1 fl1 ml1 dc1 fo1], st. state_simpl. subst.
  split; [done|]. split; [done|].
  destruct written as [|r written]; [done|].
  by rewrite Nat.add_sub.
Qed.

End Ledger.

(** ** A complete run *)

Section DriverRun.

Variable vg : Decoder.

Lemma wem_to_wav_tally input_root temp_root st m st' :
  wem_to_wav vg input_root temp_root st = Ok (m, st') ->
  tally_sound st -> tally_sound st'.
Proof.
  unfold wem_to_wav, tally_sound.
  destruct (clean_temp_folder _ _) as [t|e]; [|done]. cbn [bind].
  rewrite wem_to_wav_walk_as_steps. state_simpl.
  destruct (wem_to_wav_steps_accounts vg input_root (temp_root // "wem")
              (files_walked (FS.os_walk t input_root)) ∅ (set_fs t st))
    as (f & d & _ & _ & _ & _ & _ & Hc & Hv & _ & _ & _ & Hw).
  destruct (fold_left _ _ _) as [m1 st1]. intros [= <- <-] [Ht Hn].
  destruct st. state_simpl. rewrite Hc, length_app, length_map. split; [congruence | lia].
Qed.

Lemma retry_tally temp_wav_root st :
  tally_sound st -> tally_sound (retry_failed_conversions vg temp_wav_root st).
Proof.
  unfold retry_failed_conversions, tally_sound. intros [Ht Hn].
  destruct (failed_log st) as [records|]; [|by destruct st].
  destruct (retry_loop_attempts vg temp_wav_root (read_failed_files records) 0
              (set_failed_log (Some []) (log RetryingFailed st)))
    as (tried & _ & Hc & Hs & _ & Hw).
  destruct (fold_left _ _ _) as [new_failures st1]. cbn [fst snd] in *.
  destruct st, st1. state_simpl. rewrite Hc, length_app, length_map.
  split; [congruence | lia].
Qed.

(** X15. In every complete run the summary's "total .wem files found"
    is zero, since no stage ever raises that counter, and nothing is
    reported as converted without a decoder invocation behind it: the
    converted count is at most the number of invocations. *)
Theorem run_tally (decoder_present : bool) (t : node) (final : State) :
  main vg decoder_present t = Ok final ->
  total_wems final = 0 /\
  converted_count final <= length (decoder_calls final) /\
  last (main_log final)
  = Some (Summary 0 (converted_count final) (skipped_count final) (failed_count final)).
Proof.
  unfold main, startup.
  destruct (FS.mkdir t _) as [t1|]; [|done]. cbn [bind].
  destruct (FS.mkdir t1 _) as [t2|]; [|done]. cbn [bind].
  destruct decoder_present; [|done]. cbn [bind].
  destruct (wem_to_wav vg _ _ _) as [[mapping st1]|] eqn:E1; [|done]. cbn [bind].
  apply wem_to_wav_tally in E1; [|split; cbn; lia].
  destruct (for_each _ _ _) as [st2|] eqn:E2; [|done]. cbn [bind].
  assert (H2 : tally_sound st2).
  { apply (for_each_rel books_kept) in E2.
    - destruct E2 as (Hd & Hw & Hc & _). destruct E1 as [Ht Hn]. destruct st1. state_simpl.
      unfold tally_sound. rewrite Hd, Hw, Hc. by split.
    - by intros [].
    - apply books_kept_trans.
    - intros ? ? ?. apply convert_books_kept. }
  apply (retry_tally (PathLib.of_str "out_temp" // "wem")) in H2.
  set (st3 := retry_failed_conversions vg _ st2) in *. destruct H2 as [Ht3 Hn3].
  destruct (FS.exists_ (fs st3) _).
  - destruct (FS.rmtree _ _) as [t'|]; [|done]. cbn [bind]. intros [= <-].
    destruct st3. state_simpl. rewrite last_snoc. subst. by repeat split.
  - cbn [bind]. intros [= <-].
    destruct st3. state_simpl. rewrite last_snoc. subst. by repeat split.
Qed.

(** X16. A [.wav] source that is not skipped and can be copied is taken
    over as it is: its content is staged under [<stem>.wav], every other
    regular file stays as it was, the decoder is not invoked, and the
    file counts as skipped. If the copy fails instead, the tree is
    untouched, the failure is counted and the source path goes to the
    ledger. *)
Theorem existing_wav_is_copied
  (temp_wem_root folder_path : Path) (digit_folder : string)
  (m : gmap string string) (st : State) (file data : string) :
  let wav_name := PathLib.stem (PathLib.of_str file) +:+ ".wav" in
  let wav_path := temp_wem_root // wav_name in
  let wem_path := folder_path // file in
  let final_out_path := PathLib.of_str "out" // digit_folder // wav_name in
  Str.lower (PathLib.suffix (PathLib.of_str file)) = ".wav" ->
  FS.exists_ (fs st) wav_path = false ->
  FS.exists_ (fs st) final_out_path = false ->
  FS.read_text (fs st) wem_path = Some data ->
  let st' := (wem_to_wav_file vg temp_wem_root folder_path digit_folder (m, st) file).2 in
  decoder_calls st' = decoder_calls st /\
  converted_count st' = converted_count st /\
  match FS.copy2 (fs st) wem_path wav_path with
  | Some _ =>
      FS.read_text (fs st') wav_path = Some data /\
      (forall q d, FS.read_text (fs st) q = Some d -> FS.read_text (fs st') q = Some d) /\
      skipped_count st' = S (skipped_count st) /\
      failed_count st' = failed_count st /\
      failed_log st' = failed_log st
  | None =>
      fs st' = fs st /\
      skipped_count st' = skipped_count st /\
      failed_count st' = S (failed_count st) /\
      failed_log st' = (fun l => l ++ [PathLib.str wem_path]) <$> failed_log st
  end.
Proof.
  intros wav_name wav_path wem_path final_out_path Hext Hw Hf Hr st'.
  subst st'. unfold wem_to_wav_file.
  fold wav_name. fold wav_path. fold wem_path. fold final_out_path.
  rewrite Hw, Hf, Hext. cbn [orb].
  change (String.eqb ".wav" ".wem") with false.
  change (String.eqb ".wav" ".wav") with true. cbv iota.
  destruct (FS.copy2 (fs st) wem_path wav_path) as [t'|] eqn:Hcp;
    destruct st as [t0 tw cc sc fc fl ml dc fo]; state_simpl; [|by repeat split].
  unfold FS.copy2 in Hcp. rewrite Hr in Hcp. unfold FS.write_file in Hcp.
  destruct (is_absolute wav_path) eqn:Ha; [done|].
  assert (Hpl : FS.place (parts wav_path) (File data) t0 = Some t')
    by (by destruct (FS.stat t0 wav_path) as [[]|]).
  repeat split; try done.
  - apply read_text_inv. split; [done|]. by eapply lookup_place.
  - intros q d Hq. apply read_text_inv in Hq as [Haq Hl]. apply read_text_inv.
    split; [done|]. eapply lookup_place_file; [exact Hpl| |exact Hl].
    intros Hp. apply exists_false_inv in Hw; [|done].
    destruct (lookup_above _ _ _ _ Hl Hp) as [x Hx]. congruence.
Qed.

End DriverRun.

(** ** The Extractor away from its own input *)

(** [os.walk] lists a directory only when the loop reaches it. The
    traversal of [wem_to_wav] is that of the input tree as it stands
    after the cleaning as long as the loop does not change that tree:
    the staging area lies apart from the input root, and the decoder
    leaves the input tree alone. *)

Section InputFrame.

Variable vg : Decoder.

Lemma prefix_snoc_cases {A} (q l : list A) w :
  q `prefix_of` l ++ [w] -> q `prefix_of` l \/ q = l ++ [w].
Proof.
  intros [k Hk]. destruct k as [|z k _] using rev_ind.
  - right. by rewrite app_nil_r in Hk.
  - left. rewrite app_assoc in Hk. apply app_inj_tail in Hk as [-> _]. by exists k.
Qed.

(** Writing a file leaves whatever lies beside it. *)
Lemma write_file_beside t p data t' q :
  FS.write_file t p data = Some t' ->
  ~ parts p `prefix_of` parts q -> ~ parts q `prefix_of` parts p ->
  FS.stat t' q = FS.stat t q.
Proof.
  unfold FS.write_file. intros Hw Hpq Hqp.
  destruct (is_absolute p) eqn:Ha; [done|].
  assert (Hpl : FS.place (parts p) (File data) t = Some t')
    by (by destruct (FS.stat t p) as [[]|]).
  unfold FS.stat. destruct (is_absolute q); [done|].
  by eapply lookup_place_other.
Qed.

(** A staged file lies beside the input root. *)
Lemma staged_beside input_root temp_root x :
  staging_apart input_root temp_root -> Str.contains "/" x = false ->
  ~ parts (temp_root // "wem" // (x +:+ ".wav")) `prefix_of` parts input_root /\
  ~ parts input_root `prefix_of` parts (temp_root // "wem" // (x +:+ ".wav")).
Proof.
  intros [H1 H2] Hx. rewrite joinpath_wav by done. cbn [parts]. split.
  - intros H. apply H2. etrans; [|exact H]. by apply prefix_app_r.
  - intros H. apply prefix_snoc_cases in H as [H|H]; [by apply H1|].
    apply H2. rewrite H. by apply prefix_app_r.
Qed.

(** One file leaves the input tree as it is. *)
Lemma wem_to_wav_step_keeps_input input_root temp_root m st df :
  staging_apart input_root temp_root ->
  decoder_keeps_input vg input_root temp_root ->
  FS.stat (fs (wem_to_wav_step vg input_root (temp_root // "wem") (m, st) df).2) input_root
  = FS.stat (fs st) input_root.
Proof.
  intros Hap Hdec. destruct df as [d f].
  specialize (Hdec (decoder_calls st) (fs st) (d, f)).
  unfold decode_call, source_path, wav_name_of in Hdec.
  unfold wem_to_wav_step, wem_to_wav_file, subprocess_run.
  destruct st as [t0 tw cc sc fc fl ml dc fo]. state_simpl.
  destruct (FS.exists_ t0 _ || FS.exists_ t0 _); [done|].
  destruct (String.eqb _ ".wem").
  - destruct (vg dc t0 _) as [res t]. state_simpl.
    by destruct (negb (returncode res =? 0)%Z || negb (FS.exists_ t _)).
  - destruct (String.eqb _ ".wav"); [|done].
    destruct (FS.copy2 t0 _ _) as [t|] eqn:Hcp; [|done]. state_simpl.
    unfold FS.copy2 in Hcp. destruct (FS.read_text t0 _); [|done].
    destruct (staged_beside input_root temp_root (PathLib.stem (PathLib.of_str f))
                Hap (stem_free f)) as [Ha Hb].
    by eapply write_file_beside.
Qed.

Lemma wem_to_wav_steps_keep_input input_root temp_root l : forall m st,
  staging_apart input_root temp_root ->
  decoder_keeps_input vg input_root temp_root ->
  FS.stat (fs (fold_left (wem_to_wav_step vg input_root (temp_root // "wem")) l (m, st)).2)
    input_root
  = FS.stat (fs st) input_root.
Proof.
  induction l as [|df l IH]; intros m st Hap Hdec; [done|].
  cbn [fold_left].
  pose proof (wem_to_wav_step_keeps_input input_root temp_root m st df Hap Hdec) as H.
  destruct (wem_to_wav_step vg input_root (temp_root // "wem") (m, st) df) as [m1 st1].
  cbn [snd] in H. rewrite <- H. by apply IH.
Qed.

(** A run of the Extractor is the loop over the files of the cleaned
    tree, started from an empty FolderMapping. *)
Lemma wem_to_wav_as_steps input_root temp_root st t m st' :
  clean_temp_folder (fs st) (temp_root // "wem") = Ok t ->
  wem_to_wav vg input_root temp_root st = Ok (m, st') ->
  fold_left (wem_to_wav_step vg input_root (temp_root // "wem"))
    (files_walked (FS.os_walk t input_root)) (∅, set_fs t st)
  = (m, st').
Proof.
  intros Hclean Hrun. unfold wem_to_wav in Hrun. rewrite Hclean in Hrun.
  cbn [bind] in Hrun. rewrite wem_to_wav_walk_as_steps in Hrun.
  injection Hrun as Hrun. by destruct st.
Qed.

(** The input tree is at the end of the run what it was when the
    traversal began. *)
Lemma wem_to_wav_keeps_input input_root temp_root st t m st' :
  staging_apart input_root temp_root ->
  decoder_keeps_input vg input_root temp_root ->
  clean_temp_folder (fs st) (temp_root // "wem") = Ok t ->
  wem_to_wav vg input_root temp_root st = Ok (m, st') ->
  FS.stat (fs st') input_root = FS.stat t input_root.
Proof.
  intros Hap Hdec Hclean Hrun.
  pose proof (wem_to_wav_steps_keep_input input_root temp_root
                (files_walked (FS.os_walk t input_root)) ∅ (set_fs t st) Hap Hdec) as H.
  rewrite (wem_to_wav_as_steps _ _ _ _ _ _ Hclean Hrun) in H. by destruct st.
Qed.

End InputFrame.

(** ** The traversal as [os.walk] makes it *)

(** [os.walk] lists a directory when the loop reaches it. As long as the
    loop body leaves the tree below the start as it is, this meets the
    same directories, with the same listings and in the same order, as
    the traversal of the tree taken as a whole. *)

Section LazyWalk.

Context {A : Type}.
Variable tree_of : A -> node.
Variable body : A -> Path * list string * list string -> A.
Variable input_root : Path.
Variable n_root : node.

Hypothesis body_keeps_input : forall acc entry,
  FS.stat (tree_of acc) input_root = Some n_root ->
  FS.stat (tree_of (body acc entry)) input_root = Some n_root.

Lemma fold_body_keeps_input l : forall acc,
  FS.stat (tree_of acc) input_root = Some n_root ->
  FS.stat (tree_of (fold_left body l acc)) input_root = Some n_root.
Proof.
  induction l as [|entry l IH]; intros acc H; [done|].
  cbn [fold_left]. by apply IH, body_keeps_input.
Qed.

Lemma lookup_app p : forall q n,
  FS.lookup (p ++ q) n
  = match FS.lookup p n with
    | Some n' => FS.lookup q n'
    | None => None
    end.
Proof.
  induction p as [|c p IH]; intros q n; [done|].
  cbn [app FS.lookup]. destruct n as [|es]; [done|].
  destruct (FS.assoc c es); [apply IH | done].
Qed.

Lemma stat_below acc rel :
  FS.stat (tree_of acc) input_root = Some n_root ->
  FS.stat (tree_of acc) (mkPath (is_absolute input_root) (parts input_root ++ rel))
  = FS.lookup rel n_root.
Proof.
  unfold FS.stat. cbn [is_absolute parts].
  destruct (is_absolute input_root); [done|].
  intros H. by rewrite lookup_app, H.
Qed.

Lemma assoc_member c n es :
  distinct_names (map fst es) = true -> In (c, n) es -> FS.assoc c es = Some n.
Proof.
  induction es as [|[c0 n0] es IH]; [done|].
  cbn [map fst distinct_names FS.assoc In]. intros Hd Hin.
  apply andb_prop in Hd as [Hc0 Hd]. apply negb_true_iff in Hc0.
  destruct Hin as [[= -> ->]|Hin]; [by rewrite String.eqb_refl|].
  destruct (String.eqb_spec c c0) as [->|Hne]; [|by apply IH].
  exfalso. apply not_true_iff_false in Hc0. apply Hc0.
  apply existsb_exists. exists c0. split; [|apply String.eqb_refl].
  apply in_map_iff. by exists (c0, n).
Qed.

Lemma lookup_wf ps : forall n n',
  wf_tree n = true -> FS.lookup ps n = Some n' -> wf_tree n' = true.
Proof.
  induction ps as [|c ps IH]; intros n n' Hwf Hl; [by injection Hl as <-|].
  cbn [FS.lookup] in Hl. destruct n as [|es]; [done|].
  destruct (FS.assoc c es) as [n1|] eqn:E; [|done].
  eapply IH; [|exact Hl]. by eapply wf_tree_child.
Qed.

Lemma height_child c n es : In (c, n) es -> height n < height (Dir es).
Proof.
  cbn [height]. induction es as [|[c0 n0] es IH]; [done|].
  cbn [In fold_right]. intros [[= -> ->]|Hin]; [lia|].
  specialize (IH Hin). lia.
Qed.

Lemma child_below rel c :
  FS.child (mkPath (is_absolute input_root) (parts input_root ++ rel)) c
  = mkPath (is_absolute input_root) (parts input_root ++ (rel ++ [c])).
Proof. unfold FS.child. cbn [is_absolute parts]. by rewrite <- app_assoc. Qed.

(** From a directory below the start on, with fuel for its height. *)
Lemma walk_loop_below n : forall rel acc fuel,
  FS.lookup rel n_root = Some n ->
  wf_tree n = true ->
  FS.stat (tree_of acc) input_root = Some n_root ->
  height n < fuel ->
  walk_loop fuel tree_of body
    (mkPath (is_absolute input_root) (parts input_root ++ rel)) acc
  = Some (fold_left body
            (FS.walk (mkPath (is_absolute input_root) (parts input_root ++ rel)) n) acc).
Proof.
  induction n as [data|es IH] using node_ind'; intros rel acc fuel Hlook Hwf Hinv Hfuel.
  - destruct fuel as [|fuel]; [lia|]. cbn [walk_loop]. by rewrite stat_below, Hlook.
  - destruct fuel as [|fuel]; [cbn [height] in Hfuel; lia|].
    cbn [walk_loop]. rewrite stat_below, Hlook by done. cbn [FS.walk fold_left].
    assert (Hnames : distinct_names (map fst es) = true).
    { cbn [wf_tree] in Hwf. by apply andb_prop in Hwf as [? _]. }
    assert (Hinner : forall es2, (forall e, In e es2 -> In e es) -> forall acc1,
              FS.stat (tree_of acc1) input_root = Some n_root ->
              fold_left
                (fun r c =>
                   match r with
                   | Some acc' =>
                       walk_loop fuel tree_of body
                         (FS.child
                            (mkPath (is_absolute input_root) (parts input_root ++ rel)) c)
                         acc'
                   | None => None
                   end)
                (FS.dirnames es2) (Some acc1)
              = Some (fold_left body
                        (flat_map
                           (fun e => let '(c, n') := e in
                                     FS.walk
                                       (FS.child
                                          (mkPath (is_absolute input_root)
                                             (parts input_root ++ rel)) c) n')
                           es2)
                        acc1)).
    { induction es2 as [|[c n'] es2 IH2]; intros Hsub acc1 Hinv1; [done|].
      assert (Hin : In (c, n') es) by (apply Hsub; by left).
      assert (Hrest : forall e, In e es2 -> In e es) by (intros e He; apply Hsub; by right).
      destruct n' as [data|es'].
      - cbn [flat_map FS.walk app]. by apply IH2.
      - unfold FS.dirnames at 1. cbn [List.filter FS.is_dir_entry snd map fst fold_left].
        fold (FS.dirnames es2). cbn [flat_map]. rewrite fold_left_app, child_below.
        rewrite Forall_forall in IH.
        rewrite (IH (c, Dir es')); cbn [snd].
        + apply IH2; [done|]. by apply fold_body_keeps_input.
        + by apply list_elem_of_In.
        + rewrite lookup_app, Hlook. cbn [FS.lookup]. by rewrite (assoc_member c (Dir es') es).
        + eapply wf_tree_child; [exact Hwf|]. by apply assoc_member.
        + done.
        + pose proof (height_child c (Dir es') es Hin). cbn [height] in *. lia. }
    apply Hinner; [done|]. by apply body_keeps_input.
Qed.

(** From the start itself. *)
Lemma walk_loop_agrees acc :
  FS.stat (tree_of acc) input_root = Some n_root ->
  wf_tree n_root = true ->
  walk_loop (S (height n_root)) tree_of body input_root acc
  = Some (fold_left body (FS.walk input_root n_root) acc).
Proof.
  intros Hinv Hwf.
  pose proof (walk_loop_below n_root [] acc (S (height n_root)) eq_refl Hwf Hinv) as H.
  rewrite app_nil_r in H. destruct input_root as [a ps]. cbn [is_absolute parts] in H.
  apply H. lia.
Qed.

End LazyWalk.

Section LazyExtractor.

Variable vg : Decoder.

Lemma wem_to_wav_folder_keeps_input input_root temp_root acc entry :
  staging_apart input_root temp_root ->
  decoder_keeps_input vg input_root temp_root ->
  FS.stat (fs (wem_to_wav_folder vg input_root (temp_root // "wem") acc entry).2) input_root
  = FS.stat (fs acc.2) input_root.
Proof.
  intros Hap Hdec. destruct entry as [[folder_path dirs] files], acc as [m st].
  unfold wem_to_wav_folder. rewrite wem_to_wav_files_as_steps.
  by apply wem_to_wav_steps_keep_input.
Qed.

(** With the staging area apart from the input root, a decoder that
    leaves the input tree alone and a tree in which no directory holds
    a name twice, the Extractor driven by [os.walk] as it goes
    returns what the Extractor over the cleaned tree returns. *)
Lemma wem_to_wav_lazy_agrees input_root temp_root st t :
  staging_apart input_root temp_root ->
  decoder_keeps_input vg input_root temp_root ->
  clean_temp_folder (fs st) (temp_root // "wem") = Ok t ->
  wf_tree t = true ->
  exists fuel,
    wem_to_wav_lazy vg fuel input_root temp_root st
    = Some (wem_to_wav vg input_root temp_root st).
Proof.
  intros Hap Hdec Hclean Hwf. unfold wem_to_wav_lazy, wem_to_wav. rewrite Hclean.
  cbn [bind fs set_fs]. unfold FS.os_walk.
  destruct (FS.stat t input_root) as [n_root|] eqn:Hstat.
  - exists (S (height n_root)).
    rewrite (walk_loop_agrees (fun acc => fs acc.2)
               (wem_to_wav_folder vg input_root (temp_root // "wem")) input_root n_root).
    + done.
    + intros acc entry H. by rewrite wem_to_wav_folder_keeps_input.
    + by destruct st.
    + unfold FS.stat in Hstat. destruct (is_absolute input_root); [done|].
      by eapply lookup_wf.
  - exists 1. cbn [walk_loop snd].
    replace (fs (set_fs t st)) with t by (by destruct st).
    by rewrite Hstat.
Qed.

End LazyExtractor.

(** Where the staging area lies below the input root, the two part: the
    traversal that [os.walk] makes comes upon the staged [x.wav] in
    [in/tmp/wem] after the two assets, so that the FolderMapping entry
    of ["x.wav"] ends up as "wem" and two files count as skipped; the
    traversal of the cleaned tree knows of no such file. *)
Example staging_below_input_root :
  ~ staging_apart (PathLib.of_str "in") (PathLib.of_str "in/tmp") /\
  (exists m st,
     wem_to_wav_lazy riff_decoder 4 (PathLib.of_str "in") (PathLib.of_str "in/tmp")
       (fresh nested_tree) = Some (Ok (m, st)) /\
     m !! "x.wav" = Some "wem" /\ converted_count st = 1 /\ skipped_count st = 2) /\
  (exists m st,
     wem_to_wav riff_decoder (PathLib.of_str "in") (PathLib.of_str "in/tmp")
       (fresh nested_tree) = Ok (m, st) /\
     m !! "x.wav" = Some "b" /\ converted_count st = 1 /\ skipped_count st = 1).
Proof.
  split.
  { intros [H _]. apply H. by exists ["tmp"; "wem"]. }
  split; (eexists _, _; split; [vm_compute; reflexivity|]; repeat split; vm_compute; reflexivity).
Qed.

(** ** The files the Extractor meets *)

Section TraversedFiles.

Variable vg : Decoder.

Lemma wem_to_wav_lazy_returns input_root temp_root st t m st' :
  staging_apart input_root temp_root ->
  decoder_keeps_input vg input_root temp_root ->
  clean_temp_folder (fs st) (temp_root // "wem") = Ok t ->
  wem_to_wav vg input_root temp_root st = Ok (m, st') ->
  wf_tree t = true ->
  exists fuel, wem_to_wav_lazy vg fuel input_root temp_root st = Some (Ok (m, st')).
Proof.
  intros Hap Hdec Hclean Hrun Hwf.
  destruct (wem_to_wav_lazy_agrees vg input_root temp_root st t Hap Hdec Hclean Hwf)
    as [fuel H].
  exists fuel. by rewrite H, Hrun.
Qed.

(** C9. With the staging area apart from the input root and a decoder
    that leaves the input tree alone, the traversal is that of the
    cleaned tree, which stays as it is to the end of the run, and the
    traversal made as [os.walk] makes it returns the same. When two of
    the traversed files share a stem, the FolderMapping that
    [wem_to_wav] returns has, under [<stem>.wav], the label of the one
    met last: the later assignment replaces the earlier one, and if the
    two labels differ the earlier one is gone. *)
Theorem later_file_overwrites_label
  (input_root temp_root : Path) (st : State) (t : node)
  (m : gmap string string) (st' : State)
  (before between after : list (Path * string))
  (d1 d2 : Path) (f1 f2 : string) :
  staging_apart input_root temp_root ->
  decoder_keeps_input vg input_root temp_root ->
  clean_temp_folder (fs st) (temp_root // "wem") = Ok t ->
  wem_to_wav vg input_root temp_root st = Ok (m, st') ->
  files_walked (FS.os_walk t input_root)
  = before ++ (d1, f1) :: between ++ (d2, f2) :: after ->
  PathLib.stem (PathLib.of_str f1) = PathLib.stem (PathLib.of_str f2) ->
  Forall (fun df => PathLib.stem (PathLib.of_str df.2)
                    <> PathLib.stem (PathLib.of_str f2)) after ->
  FS.stat (fs st') input_root = FS.stat t input_root /\
  (wf_tree t = true ->
   exists fuel, wem_to_wav_lazy vg fuel input_root temp_root st = Some (Ok (m, st'))) /\
  m !! (PathLib.stem (PathLib.of_str f1) +:+ ".wav")
  = Some (digit_folder_of input_root d2) /\
  m !! (PathLib.stem (PathLib.of_str f2) +:+ ".wav")
  = Some (digit_folder_of input_root d2) /\
  (digit_folder_of input_root d1 <> digit_folder_of input_root d2 ->
   m !! (PathLib.stem (PathLib.of_str f1) +:+ ".wav")
   <> Some (digit_folder_of input_root d1)).
Proof.
  intros Hap Hdec Hclean Hrun Hwalk Hstem Hafter.
  split; [by eapply wem_to_wav_keeps_input|].
  split; [by apply wem_to_wav_lazy_returns|].
  unfold wem_to_wav in Hrun. rewrite Hclean in Hrun. cbn [bind fs set_fs] in Hrun.
  injection Hrun as E.
  apply (f_equal fst) in E. rewrite wem_to_wav_walk_mapping in E.
  cbn [fst] in E.
  assert (Hm : m !! wav_name_of f2 = Some (digit_folder_of input_root d2)).
  { rewrite <- E, Hwalk.
    rewrite app_comm_cons, app_assoc, fold_left_app.
    cbn [fold_left]. rewrite record_label_other.
    - apply lookup_insert_eq.
    - eapply Forall_impl; [exact Hafter|]. intros [d f] Hne Heq.
      apply Hne. eapply string_app_inv_tail. exact Heq. }
  unfold wav_name_of in Hm. rewrite Hstem. split; [done|]. split; [done|].
  intros Hne. rewrite Hm. congruence.
Qed.

(** X1. With the staging area apart from the input root and a decoder
    that leaves the input tree alone, the input tree stays as it is to
    the end of the run, the traversal made as [os.walk] makes it returns
    the same, and a run of the Extractor that returns has counted every traversed file at most once: the sum of
    the converted, skipped and failed counters has grown by at most the
    number of files met, no counter has gone down, and if every file is
    a [.wem] or a [.wav] the sum has grown by exactly that number. *)
Theorem extractor_counts_each_file_once
  (input_root temp_root : Path) (st : State) (t : node)
  (m : gmap string string) (st' : State) :
  staging_apart input_root temp_root ->
  decoder_keeps_input vg input_root temp_root ->
  clean_temp_folder (fs st) (temp_root // "wem") = Ok t ->
  wem_to_wav vg input_root temp_root st = Ok (m, st') ->
  let files := files_walked (FS.os_walk t input_root) in
  FS.stat (fs st') input_root = FS.stat t input_root /\
  (wf_tree t = true ->
   exists fuel, wem_to_wav_lazy vg fuel input_root temp_root st = Some (Ok (m, st'))) /\
  converted_count st <= converted_count st' /\
  skipped_count st <= skipped_count st' /\
  failed_count st <= failed_count st' /\
  counted st' <= counted st + length files /\
  (Forall (fun df => is_wem df.2 || is_wav df.2 = true) files ->
   counted st' = counted st + length files).
Proof.
  intros Hap Hdec Hclean Hrun files.
  split; [by eapply wem_to_wav_keeps_input|].
  split; [by apply wem_to_wav_lazy_returns|].
  destruct (wem_to_wav_steps_accounts vg input_root (temp_root // "wem") files ∅ (set_fs t st))
    as (f & d & _ & _ & _ & _ & Hn & _ & Hv & Hs & Ht & Ha & _).
  subst files. rewrite (wem_to_wav_as_steps vg _ _ _ _ _ _ Hclean Hrun) in *.
  destruct st. unfold counted in *. state_simpl. repeat split; try lia. exact Ha.
Qed.

(** X2. Under the same two conditions, the Extractor's failures and the
    ledger agree: the records a run has appended are the paths of some
    of the traversed files, in traversal order and one per file, and the
    failed counter has grown by exactly their number. *)
Theorem extractor_ledger_matches_failed_count
  (input_root temp_root : Path) (st : State) (t : node)
  (m : gmap string string) (st' : State) :
  staging_apart input_root temp_root ->
  decoder_keeps_input vg input_root temp_root ->
  clean_temp_folder (fs st) (temp_root // "wem") = Ok t ->
  wem_to_wav vg input_root temp_root st = Ok (m, st') ->
  FS.stat (fs st') input_root = FS.stat t input_root /\
  (wf_tree t = true ->
   exists fuel, wem_to_wav_lazy vg fuel input_root temp_root st = Some (Ok (m, st'))) /\
  exists failing,
    failing `sublist_of` files_walked (FS.os_walk t input_root) /\
    failed_log st'
    = (fun l => l ++ map (fun df => PathLib.str (df.1 // df.2)) failing) <$> failed_log st /\
    failed_count st' = failed_count st + length failing.
Proof.
  intros Hap Hdec Hclean Hrun.
  split; [by eapply wem_to_wav_keeps_input|].
  split; [by apply wem_to_wav_lazy_returns|].
  destruct (wem_to_wav_steps_accounts vg input_root (temp_root // "wem")
              (files_walked (FS.os_walk t input_root)) ∅ (set_fs t st))
    as (f & d & Hf & _ & _ & Hl & Hn & _).
  rewrite (wem_to_wav_as_steps vg _ _ _ _ _ _ Hclean Hrun) in *.
  exists f. destruct st. state_simpl. by repeat split.
Qed.

(** X3. Under the same two conditions, the Extractor invokes the decoder
    only for [.wem] files: the invocations a run has added are, in
    traversal order and at most one per file, those of some traversed
    files with that extension, each with the staged [<stem>.wav] as
    output and the file itself as input; and no more files are counted
    as converted than were decoded. *)
Theorem extractor_decodes_only_wem
  (input_root temp_root : Path) (st : State) (t : node)
  (m : gmap string string) (st' : State) :
  staging_apart input_root temp_root ->
  decoder_keeps_input vg input_root temp_root ->
  clean_temp_folder (fs st) (temp_root // "wem") = Ok t ->
  wem_to_wav vg input_root temp_root st = Ok (m, st') ->
  FS.stat (fs st') input_root = FS.stat t input_root /\
  (wf_tree t = true ->
   exists fuel, wem_to_wav_lazy vg fuel input_root temp_root st = Some (Ok (m, st'))) /\
  exists decoded,
    decoded `sublist_of` files_walked (FS.os_walk t input_root) /\
    Forall (fun df => Str.lower (PathLib.suffix (PathLib.of_str df.2)) = ".wem") decoded /\
    decoder_calls st'
    = decoder_calls st
      ++ map (fun df =>
                decoder_argv
                  (temp_root // "wem" // (PathLib.stem (PathLib.of_str df.2) +:+ ".wav"))
                  (df.1 // df.2)) decoded /\
    converted_count st' <= converted_count st + length decoded.
Proof.
  intros Hap Hdec Hclean Hrun.
  split; [by eapply wem_to_wav_keeps_input|].
  split; [by apply wem_to_wav_lazy_returns|].
  destruct (wem_to_wav_steps_accounts vg input_root (temp_root // "wem")
              (files_walked (FS.os_walk t input_root)) ∅ (set_fs t st))
    as (f & d & _ & Hd & Hw & _ & _ & Hc & Hv & _).
  rewrite (wem_to_wav_as_steps vg _ _ _ _ _ _ Hclean Hrun) in *.
  exists d. destruct st. state_simpl. repeat split; try done; try lia.
  eapply Forall_impl; [exact Hw|]. intros df H. by apply String.eqb_eq.
Qed.

(** X4. Under the same two conditions, the FolderMapping that a run of
    [wem_to_wav] returns is complete and holds nothing else: every
    traversed file has an entry under its [<stem>.wav], every entry
    comes from a traversed file of that stem, and its label is the one
    derived from that file's directory. *)
Theorem folder_mapping_complete
  (input_root temp_root : Path) (st : State) (t : node)
  (m : gmap string string) (st' : State) :
  staging_apart input_root temp_root ->
  decoder_keeps_input vg input_root temp_root ->
  clean_temp_folder (fs st) (temp_root // "wem") = Ok t ->
  wem_to_wav vg input_root temp_root st = Ok (m, st') ->
  FS.stat (fs st') input_root = FS.stat t input_root /\
  (wf_tree t = true ->
   exists fuel, wem_to_wav_lazy vg fuel input_root temp_root st = Some (Ok (m, st'))) /\
  (forall d f, (d, f) ∈ files_walked (FS.os_walk t input_root) ->
               is_Some (m !! (PathLib.stem (PathLib.of_str f) +:+ ".wav"))) /\
  (forall k v, m !! k = Some v ->
               exists d f, (d, f) ∈ files_walked (FS.os_walk t input_root) /\
                           PathLib.stem (PathLib.of_str f) +:+ ".wav" = k /\
                           v = digit_folder_of input_root d).
Proof.
  intros Hap Hdec Hclean Hrun.
  split; [by eapply wem_to_wav_keeps_input|].
  split; [by apply wem_to_wav_lazy_returns|].
  unfold wem_to_wav in Hrun. rewrite Hclean in Hrun. cbn [bind fs set_fs] in Hrun.
  injection Hrun as E.
  apply (f_equal fst) in E. rewrite wem_to_wav_walk_mapping in E. cbn [fst] in E.
  subst m. split.
  - intros d f Hin. by apply (record_label_covers input_root _ ∅ (d, f)).
  - intros k v H. apply record_label_origin in H as [H|([d f] & Hin & Hk & Hv)].
    + by rewrite lookup_empty in H.
    + by exists d, f.
Qed.

End TraversedFiles.

(** A decoder that writes nothing but its output file leaves the input
    tree alone when the staging area lies apart from it. *)
Lemma joinpath_wf p s : wf_path p -> wf_path (p // s).
Proof.
  intros Hwf. unfold PathLib.joinpath.
  destruct (is_absolute (PathLib.of_str s)) eqn:Ha; [apply of_str_wf|].
  unfold wf_path. cbn [parts]. apply Forall_app. split; [done | apply of_str_wf].
Qed.

Lemma riff_decoder_keeps_input input_root temp_root :
  wf_path temp_root -> staging_apart input_root temp_root ->
  decoder_keeps_input riff_decoder input_root temp_root.
Proof.
  intros Hwf Hap calls t [d f].
  unfold decode_call, decoder_argv, riff_decoder, source_path, wav_name_of. cbn [fst snd].
  destruct (FS.read_text t _); [|done].
  destruct (FS.write_file t _ _) as [t'|] eqn:Hw; [|done]. cbn [snd].
  rewrite of_str_str in Hw by (by do 2 apply joinpath_wf).
  destruct (staged_beside input_root temp_root (PathLib.stem (PathLib.of_str f))
              Hap (stem_free f)) as [Ha Hb].
  by eapply write_file_beside.
Qed.

Lemma sample_staging_apart :
  staging_apart (PathLib.of_str "txtp/wem") (PathLib.of_str "out_temp").
Proof. split; intros [k Hk]; vm_compute in Hk; discriminate. Qed.

Lemma sample_decoder_keeps_input :
  decoder_keeps_input riff_decoder (PathLib.of_str "txtp/wem") (PathLib.of_str "out_temp").
Proof.
  apply riff_decoder_keeps_input; [apply of_str_wf | apply sample_staging_apart].
Qed.

(** ** The further properties at the sample data *)

Lemma later_file_overwrites_label_witness :
  staging_apart (PathLib.of_str "txtp/wem") (PathLib.of_str "out_temp") /\
  decoder_keeps_input riff_decoder (PathLib.of_str "txtp/wem") (PathLib.of_str "out_temp") /\
  clean_temp_folder twin_tree (PathLib.of_str "out_temp" // "wem") = Ok twin_tree_staging /\
  files_walked (FS.os_walk twin_tree_staging (PathLib.of_str "txtp/wem"))
  = [(PathLib.of_str "txtp/wem/1", "a.wem"); (PathLib.of_str "txtp/wem/2", "a.wem")] /\
  wf_tree twin_tree_staging = true /\
  exists m st',
    wem_to_wav riff_decoder (PathLib.of_str "txtp/wem") (PathLib.of_str "out_temp")
      (fresh twin_tree) = Ok (m, st') /\
    m !! "a.wav" = Some "2" /\
    exists fuel,
      wem_to_wav_lazy riff_decoder fuel (PathLib.of_str "txtp/wem") (PathLib.of_str "out_temp")
        (fresh twin_tree) = Some (Ok (m, st')).
Proof.
  split; [exact sample_staging_apart|]. split; [exact sample_decoder_keeps_input|].
  split; [reflexivity|]. split; [reflexivity|]. split; [reflexivity|].
  destruct (wem_to_wav riff_decoder (PathLib.of_str "txtp/wem") (PathLib.of_str "out_temp")
              (fresh twin_tree)) as [[m st']|e] eqn:Hrun; [|vm_compute in Hrun; discriminate].
  exists m, st'. split; [reflexivity|].
  destruct (later_file_overwrites_label riff_decoder (PathLib.of_str "txtp/wem")
              (PathLib.of_str "out_temp") (fresh twin_tree) twin_tree_staging m st'
              [] [] [] (PathLib.of_str "txtp/wem/1") (PathLib.of_str "txtp/wem/2")
              "a.wem" "a.wem" sample_staging_apart sample_decoder_keeps_input
              eq_refl Hrun eq_refl eq_refl (Forall_nil_2 _))
    as (_ & Hlazy & _ & Hm & _).
  split; [exact Hm | exact (Hlazy eq_refl)].
Defined.

Lemma extractor_counts_each_file_once_witness :
  staging_apart (PathLib.of_str "txtp/wem") (PathLib.of_str "out_temp") /\
  decoder_keeps_input riff_decoder (PathLib.of_str "txtp/wem") (PathLib.of_str "out_temp") /\
  clean_temp_folder twin_tree (PathLib.of_str "out_temp" // "wem") = Ok twin_tree_staging /\
  wf_tree twin_tree_staging = true /\
  exists m st',
    wem_to_wav riff_decoder (PathLib.of_str "txtp/wem") (PathLib.of_str "out_temp")
      (fresh twin_tree) = Ok (m, st') /\
    counted st' <= 2 /\
    exists fuel,
      wem_to_wav_lazy riff_decoder fuel (PathLib.of_str "txtp/wem") (PathLib.of_str "out_temp")
        (fresh twin_tree) = Some (Ok (m, st')).
Proof.
  split; [exact sample_staging_apart|]. split; [exact sample_decoder_keeps_input|].
  split; [reflexivity|]. split; [reflexivity|].
  destruct (wem_to_wav riff_decoder (PathLib.of_str "txtp/wem") (PathLib.of_str "out_temp")
              (fresh twin_tree)) as [[m st']|e] eqn:Hrun; [|vm_compute in Hrun; discriminate].
  exists m, st'. split; [reflexivity|].
  pose proof (extractor_counts_each_file_once riff_decoder (PathLib.of_str "txtp/wem")
                (PathLib.of_str "out_temp") (fresh twin_tree) twin_tree_staging m st'
                sample_staging_apart sample_decoder_keeps_input eq_refl Hrun) as H.
  cbv zeta in H. destruct H as (_ & Hlazy & _ & _ & _ & Hle & _).
  split; [exact Hle | exact (Hlazy eq_refl)].
Defined.

Lemma extractor_ledger_matches_failed_count_witness :
  staging_apart (PathLib.of_str "txtp/wem") (PathLib.of_str "out_temp") /\
  decoder_keeps_input riff_decoder (PathLib.of_str "txtp/wem") (PathLib.of_str "out_temp") /\
  clean_temp_folder twin_tree (PathLib.of_str "out_temp" // "wem") = Ok twin_tree_staging /\
  wf_tree twin_tree_staging = true /\
  exists m st' (failing : list (Path * string)),
    wem_to_wav riff_decoder (PathLib.of_str "txtp/wem") (PathLib.of_str "out_temp")
      (fresh twin_tree) = Ok (m, st') /\
    failed_count st' = length failing /\
    exists fuel,
      wem_to_wav_lazy riff_decoder fuel (PathLib.of_str "txtp/wem") (PathLib.of_str "out_temp")
        (fresh twin_tree) = Some (Ok (m, st')).
Proof.
  split; [exact sample_staging_apart|]. split; [exact sample_decoder_keeps_input|].
  split; [reflexivity|]. split; [reflexivity|].
  destruct (wem_to_wav riff_decoder (PathLib.of_str "txtp/wem") (PathLib.of_str "out_temp")
              (fresh twin_tree)) as [[m st']|e] eqn:Hrun; [|vm_compute in Hrun; discriminate].
  destruct (extractor_ledger_matches_failed_count riff_decoder (PathLib.of_str "txtp/wem")
              (PathLib.of_str "out_temp") (fresh twin_tree) twin_tree_staging m st'
              sample_staging_apart sample_decoder_keeps_input eq_refl Hrun)
    as (_ & Hlazy & failing & _ & _ & Hn).
  exists m, st', failing. split; [reflexivity|]. split; [exact Hn | exact (Hlazy eq_refl)].
Defined.

Lemma extractor_decodes_only_wem_witness :
  staging_apart (PathLib.of_str "txtp/wem") (PathLib.of_str "out_temp") /\
  decoder_keeps_input riff_decoder (PathLib.of_str "txtp/wem") (PathLib.of_str "out_temp") /\
  clean_temp_folder twin_tree (PathLib.of_str "out_temp" // "wem") = Ok twin_tree_staging /\
  wf_tree twin_tree_staging = true /\
  exists m st' (decoded : list (Path * string)),
    wem_to_wav riff_decoder (PathLib.of_str "txtp/wem") (PathLib.of_str "out_temp")
      (fresh twin_tree) = Ok (m, st') /\
    converted_count st' <= length decoded /\
    exists fuel,
      wem_to_wav_lazy riff_decoder fuel (PathLib.of_str "txtp/wem") (PathLib.of_str "out_temp")
        (fresh twin_tree) = Some (Ok (m, st')).
Proof.
  split; [exact sample_staging_apart|]. split; [exact sample_decoder_keeps_input|].
  split; [reflexivity|]. split; [reflexivity|].
  destruct (wem_to_wav riff_decoder (PathLib.of_str "txtp/wem") (PathLib.of_str "out_temp")
              (fresh twin_tree)) as [[m st']|e] eqn:Hrun; [|vm_compute in Hrun; discriminate].
  destruct (extractor_decodes_only_wem riff_decoder (PathLib.of_str "txtp/wem")
              (PathLib.of_str "out_temp") (fresh twin_tree) twin_tree_staging m st'
              sample_staging_apart sample_decoder_keeps_input eq_refl Hrun)
    as (_ & Hlazy & decoded & _ & _ & _ & Hle).
  exists m, st', decoded. split; [reflexivity|]. split; [exact Hle | exact (Hlazy eq_refl)].
Defined.

Lemma folder_mapping_complete_witness :
  staging_apart (PathLib.of_str "txtp/wem") (PathLib.of_str "out_temp") /\
  decoder_keeps_input riff_decoder (PathLib.of_str "txtp/wem") (PathLib.of_str "out_temp") /\
  clean_temp_folder twin_tree (PathLib.of_str "out_temp" // "wem") = Ok twin_tree_staging /\
  (PathLib.of_str "txtp/wem/2", "a.wem")
    ∈ files_walked (FS.os_walk twin_tree_staging (PathLib.of_str "txtp/wem")) /\
  wf_tree twin_tree_staging = true /\
  exists m st',
    wem_to_wav riff_decoder (PathLib.of_str "txtp/wem") (PathLib.of_str "out_temp")
      (fresh twin_tree) = Ok (m, st') /\
    is_Some (m !! "a.wav") /\
    exists fuel,
      wem_to_wav_lazy riff_decoder fuel (PathLib.of_str "txtp/wem") (PathLib.of_str "out_temp")
        (fresh twin_tree) = Some (Ok (m, st')).
Proof.
  assert (Hin : (PathLib.of_str "txtp/wem/2", "a.wem")
                  ∈ files_walked (FS.os_walk twin_tree_staging (PathLib.of_str "txtp/wem"))).
  { apply list_elem_of_In. vm_compute. tauto. }
  split; [exact sample_staging_apart|]. split; [exact sample_decoder_keeps_input|].
  split; [reflexivity|]. split; [exact Hin|]. split; [reflexivity|].
  destruct (wem_to_wav riff_decoder (PathLib.of_str "txtp/wem") (PathLib.of_str "out_temp")
              (fresh twin_tree)) as [[m st']|e] eqn:Hrun; [|vm_compute in Hrun; discriminate].
  destruct (folder_mapping_complete riff_decoder (PathLib.of_str "txtp/wem")
              (PathLib.of_str "out_temp") (fresh twin_tree) twin_tree_staging m st'
              sample_staging_apart sample_decoder_keeps_input eq_refl Hrun)
    as (_ & Hlazy & Hall & _).
  exists m, st'. split; [reflexivity|]. split; [exact (Hall _ _ Hin) | exact (Hlazy eq_refl)].
Defined.

Lemma renamer_keeps_books_witness :
  convert "r.txtp" (PathLib.of_str "out_temp/wem") (PathLib.of_str "out")
    {["a.wav" := "1"]} (fresh sample_tree_staged) = Ok after_rename /\
  decoder_calls after_rename = [] /\ failed_log after_rename = Some [].
Proof.
  assert (Hrun : convert "r.txtp" (PathLib.of_str "out_temp/wem") (PathLib.of_str "out")
                   {["a.wav" := "1"]} (fresh sample_tree_staged) = Ok after_rename)
    by (vm_compute; reflexivity).
  split; [exact Hrun|].
  destruct (renamer_keeps_books _ _ _ _ _ _ Hrun) as (Hd & _ & _ & _ & _ & Hl).
  split; [exact Hd | exact Hl].
Defined.

Lemma renamer_keeps_files_witness :
  convert "r.txtp" (PathLib.of_str "out_temp/wem") (PathLib.of_str "out")
    {["a.wav" := "1"]} (fresh sample_tree_staged) = Ok after_rename /\
  FS.read_text sample_tree_staged (PathLib.of_str "txtp/wem/1/a.wem") = Some "A" /\
  ~ parts (PathLib.of_str "out_temp/wem") `prefix_of` parts (PathLib.of_str "txtp/wem/1/a.wem") /\
  FS.read_text (fs after_rename) (PathLib.of_str "txtp/wem/1/a.wem") = Some "A".
Proof.
  assert (Hrun : convert "r.txtp" (PathLib.of_str "out_temp/wem") (PathLib.of_str "out")
                   {["a.wav" := "1"]} (fresh sample_tree_staged) = Ok after_rename)
    by (vm_compute; reflexivity).
  assert (Hq : ~ parts (PathLib.of_str "out_temp/wem")
                 `prefix_of` parts (PathLib.of_str "txtp/wem/1/a.wem")).
  { intros [k Hk]. vm_compute in Hk. discriminate. }
  split; [exact Hrun|]. split; [reflexivity|]. split; [exact Hq|].
  exact (renamer_keeps_files _ _ _ _ _ _ (PathLib.of_str "txtp/wem/1/a.wem") "A"
           Hrun eq_refl Hq).
Defined.

Lemma renamer_without_references_witness :
  FS.read_text sample_tree_staged (PathLib.of_str "txtp" // "none.txtp") = None /\
  convert "none.txtp" (PathLib.of_str "out_temp/wem") (PathLib.of_str "out") ∅
    (fresh sample_tree_staged)
  = Ok (log (FailedToRead (PathLib.of_str "txtp" // "none.txtp")) (fresh sample_tree_staged)).
Proof.
  split; [reflexivity|].
  destruct (renamer_without_references "none.txtp" (PathLib.of_str "out_temp/wem")
              (PathLib.of_str "out") ∅ (fresh sample_tree_staged)) as [H _].
  exact (H eq_refl).
Defined.

Lemma destinations_differ_by_position_witness :
  Str.contains "/" "r.txtp" = false /\ 0 <> 2 /\
  PathLib.of_str "out" // "1" // (hd "" (Str.split "." "r.txtp") +:+ "_" +:+ Str.of_nat 0 +:+ ".wav")
  <> PathLib.of_str "out" // "1"
       // (hd "" (Str.split "." "r.txtp") +:+ "_" +:+ Str.of_nat 2 +:+ ".wav").
Proof.
  assert (Hne : 0 <> 2) by discriminate.
  split; [reflexivity|]. split; [exact Hne|].
  exact (destinations_differ_by_position "r.txtp" (PathLib.of_str "out") "1" "1" 0 2
           eq_refl Hne).
Defined.

Lemma renamed_file_is_moved_witness :
  wf_tree sample_tree_staged = true /\
  convert_token "r.txtp" (PathLib.of_str "out_temp/wem") (PathLib.of_str "out")
    {["a.wav" := "1"]} (fresh sample_tree_staged) (0, "wem/a.wem") = Ok after_rename /\
  main_log after_rename
  = [Renamed (PathLib.of_str "out_temp/wem/a.wav") (PathLib.of_str "out/1/r_0.wav")] /\
  FS.exists_ (fs after_rename) (PathLib.of_str "out_temp/wem/a.wav") = false.
Proof.
  assert (Hrun : convert_token "r.txtp" (PathLib.of_str "out_temp/wem") (PathLib.of_str "out")
                   {["a.wav" := "1"]} (fresh sample_tree_staged) (0, "wem/a.wem")
                 = Ok after_rename) by (vm_compute; reflexivity).
  split; [reflexivity|]. split; [exact Hrun|]. split; [reflexivity|].
  destruct (renamed_file_is_moved "r.txtp" (PathLib.of_str "out_temp/wem")
              (PathLib.of_str "out") {["a.wav" := "1"]} 0 "wem/a.wem"
              (fresh sample_tree_staged) after_rename
              (PathLib.of_str "out_temp/wem/a.wav") (PathLib.of_str "out/1/r_0.wav")
              eq_refl Hrun eq_refl) as (_ & Hgone & _).
  exact Hgone.
Defined.

Lemma staging_area_starts_empty_witness :
  wf_tree sample_tree_staged = true /\
  clean_temp_folder sample_tree_staged (PathLib.of_str "out_temp" // "wem")
  = Ok sample_tree_staging /\
  FS.stat sample_tree_staging (PathLib.of_str "out_temp" // "wem") = Some (Dir []).
Proof.
  split; [reflexivity|]. split; [reflexivity|].
  destruct (staging_area_starts_empty (PathLib.of_str "out_temp") sample_tree_staged) as [H _].
  exact (H sample_tree_staging eq_refl eq_refl).
Defined.

Lemma retry_tries_each_entry_once_witness :
  failed_log retry_state = Some ["txtp/wem/1/a.wem"; "txtp/wem/1/b.wem"] /\
  exists tried,
    tried `sublist_of` ["txtp/wem/1/a.wem"; "txtp/wem/1/b.wem"] /\
    failed_count (retry_failed_conversions riff_decoder (PathLib.of_str "out_temp/wem") retry_state)
    + converted_count
        (retry_failed_conversions riff_decoder (PathLib.of_str "out_temp/wem") retry_state)
    = length tried.
Proof.
  split; [reflexivity|].
  destruct (retry_tries_each_entry_once riff_decoder (PathLib.of_str "out_temp/wem")
              retry_state ["txtp/wem/1/a.wem"; "txtp/wem/1/b.wem"] eq_refl)
    as (tried & Hs & _ & Hn).
  exists tried. split; [exact Hs | exact Hn].
Defined.

Lemma path_str_round_trip_witness :
  wf_path (PathLib.of_str "txtp/wem/1/a.wem") /\
  PathLib.of_str (PathLib.str (PathLib.of_str "txtp/wem/1/a.wem"))
  = PathLib.of_str "txtp/wem/1/a.wem".
Proof.
  destruct (path_str_round_trip (PathLib.of_str "txtp/wem/1/a.wem")) as (Hrt & Hwf & _).
  split; [exact (Hwf "txtp/wem/1/a.wem") | exact (Hrt (Hwf "txtp/wem/1/a.wem"))].
Defined.

Lemma ledger_round_trip_witness :
  wf_path (PathLib.of_str "txtp/wem/1/a.wem") /\
  Str.strip "txtp/wem/1/a.wem" = "txtp/wem/1/a.wem" /\
  map PathLib.of_str (read_failed_files ["txtp/wem/1/a.wem"])
  = [PathLib.of_str "txtp/wem/1/a.wem"].
Proof.
  assert (Hwf : wf_path (PathLib.of_str "txtp/wem/1/a.wem")).
  { unfold wf_path. vm_compute. repeat constructor. }
  split; [exact Hwf|]. split; [reflexivity|].
  exact (ledger_round_trip (PathLib.of_str "txtp/wem/1/a.wem") Hwf eq_refl eq_refl eq_refl).
Defined.

Lemma run_tally_witness :
  main riff_decoder true sample_tree = Ok after_first_run /\
  total_wems after_first_run = 0 /\
  converted_count after_first_run <= length (decoder_calls after_first_run).
Proof.
  assert (Hrun : main riff_decoder true sample_tree = Ok after_first_run)
    by (vm_compute; reflexivity).
  split; [exact Hrun|].
  destruct (run_tally riff_decoder true sample_tree after_first_run Hrun) as (Ht & Hc & _).
  split; [exact Ht | exact Hc].
Defined.

Lemma existing_wav_is_copied_witness :
  Str.lower (PathLib.suffix (PathLib.of_str "b.wav")) = ".wav" /\
  FS.exists_ wav_source_tree (PathLib.of_str "out_temp/wem/b.wav") = false /\
  FS.exists_ wav_source_tree (PathLib.of_str "out/1/b.wav") = false /\
  FS.read_text wav_source_tree (PathLib.of_str "txtp/wem/1/b.wav") = Some "RIFFB" /\
  FS.copy2 wav_source_tree (PathLib.of_str "txtp/wem/1/b.wav")
    (PathLib.of_str "out_temp/wem/b.wav") = Some wav_source_tree_staged /\
  FS.read_text
    (fs (wem_to_wav_file riff_decoder (PathLib.of_str "out_temp/wem")
           (PathLib.of_str "txtp/wem/1") "1" (∅, fresh wav_source_tree) "b.wav").2)
    (PathLib.of_str "out_temp/wem/b.wav") = Some "RIFFB".
Proof.
  do 5 (split; [reflexivity|]).
  pose proof (existing_wav_is_copied riff_decoder (PathLib.of_str "out_temp/wem")
                (PathLib.of_str "txtp/wem/1") "1" ∅ (fresh wav_source_tree) "b.wav" "RIFFB")
    as H.
  cbv zeta in H. destruct (H eq_refl eq_refl eq_refl eq_refl) as (_ & _ & Hc).
  change (FS.copy2 (fs (fresh wav_source_tree)) (PathLib.of_str "txtp/wem/1" // "b.wav")
            (PathLib.of_str "out_temp/wem" // (PathLib.stem (PathLib.of_str "b.wav") +:+ ".wav")))
    with (Some wav_source_tree_staged) in Hc.
  destruct Hc as (Hr & _). exact Hr.
Defined.
